(** * Price history alignment, caching and validation

    A shallow embedding of [services/data_service.py]
    (class [YahooFinanceDataService]) and the properties of its alignment
    step, its cache and its integrity validator.

    Conventions of the embedding:
    - a pandas [Timestamp] label is an integer (a totally ordered instant);
    - a frame cell is [option V]: [None] is a missing value (NaN), [Some v]
      an observed value of the value type [V], which the code never
      inspects; the one thing pandas does to a value is to promote it with
      its column ([Promote]) when a reindexing adds a row of missing values;
    - a [DataFrame] is its column index plus its rows in storage order, each
      row being its date label and one cell per column;
    - a Python [dict] keyed by symbol is a [gmap string _]; a Python [set] of
      dates is a [gset Z];
    - an exception is an explicit outcome [Raise e]; the provider
      ([yf.download]) and the trades workbook are parameters collected in
      [Env]; the provider may answer differently from one call to the next,
      as a function of the calls made so far, which the state records. *)

From Stdlib Require Import ZArith Lia.
From stdpp Require Import gmap strings list fin_maps sorting.

Local Open Scope Z_scope.
#[local] Set Warnings "-clear-no-such-hyp".

(** ** Outcomes of fallible code *)

Inductive exn : Type :=
  | FileNotFoundError
  | ValueError
  | IndexError
  | KeyError
  | ProviderError (msg : string).

Inductive result (A : Type) : Type :=
  | Ok (a : A)
  | Raise (e : exn).
Arguments Ok {A} a.
Arguments Raise {A} e.

Definition result_bind {A B} (r : result A) (k : A → result B) : result B :=
  match r with
  | Ok a => k a
  | Raise e => Raise e
  end.

(** ** Column indexes *)

(** [df.columns] is either a flat index of labels or a [pd.MultiIndex] whose
    labels are tuples with [nlevels] components. *)
Inductive Columns : Type :=
  | Index (labels : list string)
  | MultiIndex (nlevels : nat) (tuples : list (list string)).

Definition columns_length (c : Columns) : nat :=
  match c with
  | Index labels => length labels
  | MultiIndex _ tuples => length tuples
  end.

(** [isinstance(df.columns, pd.MultiIndex)] *)
Definition is_MultiIndex (c : Columns) : bool :=
  match c with
  | Index _ => false
  | MultiIndex _ _ => true
  end.

(** Removing the component at position 1 of a tuple label. *)
Definition drop_component_1 (t : list string) : list string :=
  take 1 t ++ drop 2 t.

(** [columns.droplevel(1)] on a [MultiIndex]: pandas raises when the index
    has no level 1 to remove; with two levels the outcome is the flat index
    of the level-0 labels, with more it is a [MultiIndex] with one level
    less. The number of labels never changes. *)
Definition droplevel_1 (c : Columns) : result Columns :=
  match c with
  | Index labels => Ok (Index labels)
  | MultiIndex nlevels tuples =>
      match nlevels with
      | O | S O => Raise IndexError
      | S (S O) => Ok (Index (map (λ t, hd ""%string t) tuples))
      | S (S (S _)) => Ok (MultiIndex (Nat.pred nlevels) (map drop_component_1 tuples))
      end
  end.

(** ** Frames *)

(** [promote v] is what a value becomes when the column that holds it is
    promoted so that it can hold a missing value: pandas casts an [int64]
    column to [float64], each entry to the nearest [float64]; a value that
    already is a [float64] is left as it is. *)
Class Promote (V : Type) : Type := promote : V → V.

Section Frames.
Context {V : Type} `{!Promote V}.

Definition Row : Type := Z * list (option V).

Record DataFrame : Type := mkDataFrame {
  columns : Columns;
  rows : list Row
}.

(** [df.index] *)
Definition index (df : DataFrame) : list Z := (rows df).*1.

Definition ncols (df : DataFrame) : nat := columns_length (columns df).

(** [df.empty]: some axis has length zero. *)
Definition empty (df : DataFrame) : bool :=
  bool_decide (length (rows df) = 0%nat) || bool_decide (ncols df = 0%nat).

(** The cells of the first row labelled [d], if there is one. *)
Fixpoint lookup_row (d : Z) (rs : list Row) : option (list (option V)) :=
  match rs with
  | [] => None
  | (d', cells) :: rest => if decide (d' = d) then Some cells else lookup_row d rest
  end.

(** The value of the frame at date [d] and column position [j]; [None]
    when the row is absent, the position is outside the row, or the cell
    is missing. *)
Definition cell (df : DataFrame) (d : Z) (j : nat) : option V :=
  match lookup_row d (rows df) with
  | Some cells => mjoin (cells !! j)
  | None => None
  end.

(** Lines 84-85: a [MultiIndex] column index loses its level 1; nothing
    else of the frame changes. *)
Definition flatten_columns (df : DataFrame) : result DataFrame :=
  if is_MultiIndex (columns df)
  then result_bind (droplevel_1 (columns df))
         (λ c, Ok {| columns := c; rows := rows df |})
  else Ok df.

(** [df.reindex(labels)]: pandas refuses an axis with duplicate labels;
    otherwise the new frame has one row per requested label, the row of
    [df] with that label when there is one and a row of missing values
    when there is none. As soon as one row of missing values is added, the
    columns are promoted to a type that can hold a missing value, and the
    kept values with them. *)
(** Whether every requested label is a label of the frame. *)
Definition covers (df : DataFrame) (labels : list Z) : bool :=
  forallb (λ d, bool_decide (d ∈ index df)) labels.

(** The cells of a kept row: as they are when no row has to be added,
    promoted when some requested label is not a label of the frame. *)
Definition kept_cells (keep : bool) (cells : list (option V)) : list (option V) :=
  if keep then cells else map (option_map promote) cells.

Definition promote_if (keep : bool) (v : V) : V :=
  if keep then v else promote v.

Definition conform (df : DataFrame) (labels : list Z) : DataFrame :=
  {| columns := columns df;
     rows := map (λ d, (d, default (replicate (ncols df) None)
                                  (kept_cells (covers df labels)
                                     <$> lookup_row d (rows df)))) labels |}.

Definition reindex (df : DataFrame) (labels : list Z) : result DataFrame :=
  if decide (NoDup (index df)) then Ok (conform df labels) else Raise ValueError.

(** One row of a forward fill: a missing cell takes the cell at the same
    position of the previous (already filled) row. *)
Fixpoint fill_row (last cells : list (option V)) : list (option V) :=
  match cells with
  | [] => []
  | c :: cs =>
      match c with
      | Some v => Some v
      | None => mjoin (head last)
      end :: fill_row (tail last) cs
  end.

Fixpoint ffill_rows (last : list (option V)) (rs : list Row) : list Row :=
  match rs with
  | [] => []
  | (d, cells) :: rest =>
      let filled := fill_row last cells in
      (d, filled) :: ffill_rows filled rest
  end.

(** [df.ffill()] *)
Definition ffill (df : DataFrame) : DataFrame :=
  {| columns := columns df; rows := ffill_rows [] (rows df) |}.

(** ** The alignment step (lines 90-106) *)

(** Lines 93-95: the set of every date of every frame. *)
Definition all_dates (frames : gmap string DataFrame) : gset Z :=
  foldl (λ acc df, acc ∪ list_to_set (index df)) ∅ (map_to_list frames).*2.

(** Line 98: [sorted(all_dates)]. *)
Definition complete_dates (frames : gmap string DataFrame) : list Z :=
  merge_sort Z.le (elements (all_dates frames)).

(** Lines 101-104: each key of the dict in turn has its frame replaced by
    the reindexed and forward-filled one. *)
Fixpoint reindex_loop (dates : list Z) (keys : list string)
    (frames : gmap string DataFrame) : result (gmap string DataFrame) :=
  match keys with
  | [] => Ok frames
  | symbol :: rest =>
      match frames !! symbol with
      | None => Raise KeyError
      | Some df =>
          result_bind (reindex df dates)
            (λ df', reindex_loop dates rest (<[symbol := ffill df']> frames))
      end
  end.

(** The body of [if frames:]. *)
Definition align (frames : gmap string DataFrame) : result (gmap string DataFrame) :=
  reindex_loop (complete_dates frames) (map_to_list frames).*1 frames.

(** [if frames: ...]: an empty dict is falsy and is left alone. *)
Definition align_if_any (frames : gmap string DataFrame) : result (gmap string DataFrame) :=
  if bool_decide (size frames = 0%nat) then Ok frames else align frames.

(** ** The service *)

(** [Trade(date=..., ticker=..., price=..., quantity=..., direction=...)] *)
Record Trade : Type := mkTrade {
  date : Z;
  ticker : string;
  price : V;
  quantity : V;
  direction : string
}.

(** What the service reads from outside.
    - [yf_download calls symbol] is the outcome of [yf.download(symbol,
      start=..., end=tomorrow, progress=False)] when [calls] lists the
      downloads made before it; the date window comes from the
      configuration and is part of the provider here.
    - [trades_xlsx] is the outcome of reading the workbook and parsing its
      date column (lines 41-42), and for each of its rows the outcome of
      coercing that row to a [Trade] (lines 46-52).
    - [tracked_symbols] are the keys of [config.market.tracked_symbols]. *)
Record Env : Type := mkEnv {
  yf_download : list string → string → result DataFrame;
  trades_xlsx : result (list (result Trade));
  tracked_symbols : list string
}.

(** The service instance ([_price_cache]) together with the record of the
    provider calls made so far. *)
Record State : Type := mkState {
  price_cache : option (gmap string DataFrame);
  downloads : list string
}.

(** Line 36 *)
Definition init : State := {| price_cache := None; downloads := [] |}.

(** Computations that read and write the state and may raise. *)
Definition M (A : Type) : Type := State → result A * State.

Definition ret {A} (a : A) : M A := λ st, (Ok a, st).

Definition bind {A B} (m : M A) (k : A → M B) : M B :=
  λ st, match m st with
        | (Ok a, st') => k a st'
        | (Raise e, st') => (Raise e, st')
        end.

Definition lift {A} (r : result A) : M A := λ st, (r, st).

Definition get_cache : M (option (gmap string DataFrame)) :=
  λ st, (Ok (price_cache st), st).

Definition set_cache (c : option (gmap string DataFrame)) : M unit :=
  λ st, (Ok (), {| price_cache := c; downloads := downloads st |}).

(** One provider call: the answer depends on the calls made so far, and
    the call is recorded whether it returns or raises. *)
Definition download (env : Env) (symbol : string) : M DataFrame :=
  λ st, (yf_download env (downloads st) symbol,
         {| price_cache := price_cache st; downloads := downloads st ++ [symbol] |}).

End Frames.

Arguments DataFrame : clear implicits.
Arguments Row : clear implicits.
Arguments Trade : clear implicits.
Arguments Env : clear implicits.
Arguments State : clear implicits.
Arguments M : clear implicits.

Notation "x <- c ; k" := (bind c (λ x, k))
  (at level 20, c at level 100, k at level 200, only parsing).

Section Service.
Context {V : Type} `{!Promote V}.

(** Lines 38-63. The two handlers log and re-raise, so the outcome is that
    of the body: the workbook is read, then the rows are coerced in order
    and the first row that fails aborts the load. *)
Fixpoint coerce_rows (rs : list (result (Trade V))) : result (list (Trade V)) :=
  match rs with
  | [] => Ok []
  | r :: rest =>
      result_bind r (λ trade,
        result_bind (coerce_rows rest) (λ trades, Ok (trade :: trades)))
  end.

Definition load_trades (env : Env V) : M V (list (Trade V)) :=
  lift (result_bind (trades_xlsx env) coerce_rows).

(** Lines 74-88: the download loop. *)
Fixpoint download_loop (env : Env V) (symbols : list string)
    (frames : gmap string (DataFrame V)) : M V (gmap string (DataFrame V)) :=
  match symbols with
  | [] => ret frames
  | symbol :: rest =>
      df <- download env symbol;
      df <- lift (flatten_columns df);
      download_loop env rest (<[symbol := df]> frames)
  end.

(** Lines 70-109: the body of the [try]. *)
Definition fetch_and_align (env : Env V) (symbols : list string)
    : M V (gmap string (DataFrame V)) :=
  frames <- download_loop env symbols ∅;
  frames <- lift (align_if_any frames);
  _ <- set_cache (Some frames);
  ret frames.

(** Lines 65-113. The handler logs and re-raises. *)
Definition get_price_history (env : Env V) (symbols : list string)
    : M V (gmap string (DataFrame V)) :=
  cache <- get_cache;
  match cache with
  | Some panel => ret panel
  | None => fetch_and_align env symbols
  end.

(** Lines 128-131 *)
Fixpoint check_symbols (symbols : list string)
    (price_data : gmap string (DataFrame V)) : bool :=
  match symbols with
  | [] => true
  | symbol :: rest =>
      match price_data !! symbol with
      | None => false
      | Some df => if empty df then false else check_symbols rest price_data
      end
  end.

(** Lines 117-134: the body of the [try]. *)
Definition validate_body (env : Env V) : M V bool :=
  trades <- load_trades env;
  match trades with
  | [] => ret false
  | _ :: _ =>
      let symbols := tracked_symbols env in
      price_data <- get_price_history env symbols;
      ret (check_symbols symbols price_data)
  end.

(** Lines 115-138: every exception of the body becomes [False]. *)
Definition validate_data_integrity (env : Env V) (st : State V) : bool * State V :=
  match validate_body env st with
  | (Ok b, st') => (b, st')
  | (Raise _, st') => (false, st')
  end.

(** Lines 140-143 *)
Definition clear_cache (st : State V) : State V :=
  {| price_cache := None; downloads := downloads st |}.

(** ** Sequences of calls on one service instance *)

Inductive call : Type :=
  | GetPriceHistory (symbols : list string)
  | ValidateDataIntegrity
  | ClearCache.

Inductive answer : Type :=
  | Returned (r : result (gmap string (DataFrame V)))
  | Verdict (b : bool)
  | Cleared.

Definition run_call (env : Env V) (c : call) (st : State V) : answer * State V :=
  match c with
  | GetPriceHistory symbols =>
      let (r, st') := get_price_history env symbols st in (Returned r, st')
  | ValidateDataIntegrity =>
      let (b, st') := validate_data_integrity env st in (Verdict b, st')
  | ClearCache => (Cleared, clear_cache st)
  end.

Fixpoint run_calls (env : Env V) (cs : list call) (st : State V)
    : list answer * State V :=
  match cs with
  | [] => ([], st)
  | c :: rest =>
      let (a, st') := run_call env c st in
      let (answers, st'') := run_calls env rest st' in
      (a :: answers, st'')
  end.

Definition is_clear (c : call) : bool :=
  match c with
  | ClearCache => true
  | _ => false
  end.

(** ** Notions used to state the properties *)

(** Every row of the frame has one cell per column. *)
Definition rectangular (df : DataFrame V) : Prop :=
  Forall (λ r : Row V, length r.2 = ncols df) (rows df).

(** The value carried by a forward scan of the labels [ds] when it reaches
    the first occurrence of [D]: the last observed value of [f] met so
    far, or the initial carry [acc]. *)
Fixpoint last_seen (f : Z → option V) (ds : list Z) (D : Z) (acc : option V)
    : option V :=
  match ds with
  | [] => acc
  | d :: rest =>
      let acc' := match f d with Some v => Some v | None => acc end in
      if decide (d = D) then acc' else last_seen f rest D acc'
  end.


End Service.

(** ** Sample data *)

(** The sample values are integers; [nearest53 n] is the integer value of
    the [float64] nearest to [n] (53 bits of mantissa, ties to even), which
    is [n] itself up to 2^53 in absolute value. *)
Definition nearest53 (n : Z) : Z :=
  let a := Z.abs n in
  if a <? 2 ^ 53 then n
  else
    let e := Z.log2 a - 52 in
    let q := a / 2 ^ e in
    let r := a mod 2 ^ e in
    let half := 2 ^ (e - 1) in
    let q' := if r <? half then q
              else if half <? r then q + 1
              else if Z.even q then q else q + 1 in
    Z.sgn n * (q' * 2 ^ e).

#[global] Instance promote_sample : Promote Z := nearest53.

Module Samples.

(** A provider answer with a two-level column index (field, ticker):
    observations on days 1, 2 and 5, one missing cell on day 2. *)
Definition spy : DataFrame Z :=
  {| columns := MultiIndex 2 [["Close"; "SPY"]; ["Open"; "SPY"]]%string;
     rows := [(1, [Some 10; Some 11]); (2, [Some 20; None]);
              (5, [Some 50; Some 51])] |}.

(** A later starting instrument with a flat column index. *)
Definition qqq : DataFrame Z :=
  {| columns := Index ["Close"]%string;
     rows := [(3, [Some 7]); (4, [Some 8])] |}.

(** The provider has no data in range: no rows, the columns are there. *)
Definition none_in_range : DataFrame Z :=
  {| columns := Index ["Close"]%string; rows := [] |}.

(** Two rows carry the same date. *)
Definition twice : DataFrame Z :=
  {| columns := Index ["Close"]%string;
     rows := [(1, [Some 1]); (1, [Some 2])] |}.

Definition provider (calls : list string) (symbol : string) : result (DataFrame Z) :=
  if decide (symbol = "SPY"%string) then Ok spy
  else if decide (symbol = "QQQ"%string) then Ok qqq
  else if decide (symbol = "DUP"%string) then Ok twice
  else if decide (symbol = "DOWN"%string) then Raise (ProviderError "timeout")
  else Ok none_in_range.

Definition one_trade : Trade Z :=
  {| date := 1; ticker := "SPY"; price := 10; quantity := 2; direction := "Buy" |}.

Definition env (tracked : list string) : Env Z :=
  {| yf_download := provider;
     trades_xlsx := Ok [Ok one_trade];
     tracked_symbols := tracked |}.

Definition frames2 : gmap string (DataFrame Z) :=
  <["QQQ"%string := qqq]> (<["SPY"%string :=
     {| columns := Index ["Close"; "Open"]%string; rows := rows spy |}]> ∅).

Definition frames3 : gmap string (DataFrame Z) :=
  <["GONE"%string := none_in_range]> frames2.

(** A workbook that cannot be read, and one whose second row does not
    coerce. *)
Definition env_no_workbook : Env Z :=
  {| yf_download := provider;
     trades_xlsx := Raise FileNotFoundError;
     tracked_symbols := ["SPY"]%string |}.

Definition env_bad_row : Env Z :=
  {| yf_download := provider;
     trades_xlsx := Ok [Ok one_trade; Raise ValueError; Ok one_trade];
     tracked_symbols := ["SPY"]%string |}.

(** A provider answer with a three-level column index. *)
Definition three_levels : DataFrame Z :=
  {| columns := MultiIndex 3 [["Close"; "SPY"; "USD"];
                              ["Open"; "SPY"; "USD"]]%string;
     rows := [(1, [Some 10; Some 11])] |}.

(** An [int64] column with a value above 2^53, next to a symbol that has
    one more date. *)
Definition volume : DataFrame Z :=
  {| columns := Index ["Volume"]%string;
     rows := [(1, [Some 9007199254740993])] |}.

Definition frames_volume : gmap string (DataFrame Z) :=
  <["VOL"%string := volume]> (<["QQQ"%string := qqq]> ∅).

(** A frame whose dates all belong to the calendar of [frames2]. *)
Definition inside : DataFrame Z :=
  {| columns := Index ["Close"]%string;
     rows := [(4, [Some 40]); (2, [Some 22])] |}.

End Samples.

(** * Properties *)

(** ** Rows, reindexing and the calendar *)

Section FrameFacts.
Context {V : Type} `{!Promote V}.
Implicit Types (df : DataFrame V) (rs : list (Row V)).
Implicit Types (frames panel : gmap string (DataFrame V)).

Lemma lookup_row_Some d rs cells :
  lookup_row d rs = Some cells → (d, cells) ∈ rs.
Proof.
  induction rs as [|[d' c] rs IH]; simpl; [done|].
  case_decide as Hd.
  - intros [= <-]. subst d'. apply list_elem_of_here.
  - intros H. apply list_elem_of_further. auto.
Qed.

Lemma lookup_row_None d rs : lookup_row d rs = None ↔ d ∉ rs.*1.
Proof.
  induction rs as [|[d' c] rs IH]; simpl.
  - split; [intros _; apply not_elem_of_nil | done].
  - rewrite not_elem_of_cons. case_decide as Hd.
    + split; [done|]. by intros [? _].
    + rewrite IH. split; [by split|by intros [_ ?]].
Qed.

Lemma lookup_row_is_Some d rs : is_Some (lookup_row d rs) ↔ d ∈ rs.*1.
Proof.
  destruct (lookup_row d rs) as [c|] eqn:E.
  - split; [intros _|eauto].
    apply lookup_row_Some in E. apply list_elem_of_fmap. by exists (d, c).
  - apply lookup_row_None in E. split; [by intros [? ?]|done].
Qed.

Lemma lookup_row_map (g : Z → list (option V)) ds D :
  D ∈ ds → lookup_row D (map (λ d, (d, g d)) ds) = Some (g D).
Proof.
  induction ds as [|d ds IH]; simpl.
  - by intros ?%elem_of_nil.
  - intros [->|Hin]%elem_of_cons; case_decide; naive_solver.
Qed.

Lemma index_conform df labels : index (conform df labels) = labels.
Proof.
  unfold index, conform; simpl. generalize (covers df labels). intros keep.
  induction labels as [|d l IH]; simpl; [done|]. f_equal. exact IH.
Qed.

Lemma index_ffill_rows last rs : (ffill_rows last rs).*1 = rs.*1.
Proof.
  revert last. induction rs as [|[d c] rs IH]; intros last; simpl; [done|].
  by rewrite IH.
Qed.

Lemma index_ffill df : index (ffill df) = index df.
Proof. apply index_ffill_rows. Qed.

Lemma elem_of_foldl_dates (d : Z) (l : list (DataFrame V)) (acc : gset Z) :
  d ∈ foldl (λ acc df, acc ∪ list_to_set (index df)) acc l
  ↔ d ∈ acc ∨ ∃ df, df ∈ l ∧ d ∈ index df.
Proof.
  revert acc. induction l as [|df l IH]; intros acc; simpl.
  - split; [auto|]. intros [?|(df & []%elem_of_nil & _)]; done.
  - rewrite IH, elem_of_union, elem_of_list_to_set. split.
    + intros [[?|?]|(df' & ? & ?)]; [by left| |].
      * right. exists df. split; [apply list_elem_of_here|done].
      * right. exists df'. split; [by apply list_elem_of_further|done].
    + intros [?|(df' & [->|?]%elem_of_cons & ?)]; eauto.
Qed.

(** The calendar holds exactly the dates met in some frame. *)
Lemma elem_of_all_dates frames d :
  d ∈ all_dates frames ↔ ∃ s df, frames !! s = Some df ∧ d ∈ index df.
Proof.
  unfold all_dates. rewrite elem_of_foldl_dates. split.
  - intros [[]%not_elem_of_empty|(df & Hin & Hd)].
    apply list_elem_of_fmap in Hin as ([s df'] & -> & Hin).
    apply elem_of_map_to_list in Hin. eauto.
  - intros (s & df & Hs & Hd). right. exists df. split; [|done].
    apply list_elem_of_fmap. exists (s, df). split; [done|].
    by apply elem_of_map_to_list.
Qed.

Lemma elem_of_complete_dates frames d :
  d ∈ complete_dates frames ↔ ∃ s df, frames !! s = Some df ∧ d ∈ index df.
Proof.
  unfold complete_dates.
  rewrite merge_sort_Permutation, elem_of_elements. apply elem_of_all_dates.
Qed.

Lemma NoDup_complete_dates frames : NoDup (complete_dates frames).
Proof.
  unfold complete_dates. rewrite merge_sort_Permutation. apply NoDup_elements.
Qed.

Lemma Sorted_le_NoDup_lt (l : list Z) :
  Sorted Z.le l → NoDup l → StronglySorted Z.lt l.
Proof.
  intros Hs%Sorted_StronglySorted; [|intros x y z; lia].
  induction Hs as [|x l Hs IH Hall]; intros Hnd; [constructor|].
  apply NoDup_cons in Hnd as [Hx Hnd]. constructor; [auto|].
  rewrite Forall_forall in Hall |- *. intros y Hy.
  assert (x ≠ y) by (intros ->; done). specialize (Hall y Hy). lia.
Qed.

(** [sorted] of a set: strictly increasing, hence free of duplicates. *)
Lemma complete_dates_sorted frames : StronglySorted Z.lt (complete_dates frames).
Proof.
  apply Sorted_le_NoDup_lt; [|apply NoDup_complete_dates].
  unfold complete_dates. apply (Sorted_merge_sort Z.le).
Qed.

Lemma covers_true df (labels : list Z) :
  (∀ c, c ∈ labels → c ∈ index df) → covers df labels = true.
Proof.
  intros H. unfold covers. apply forallb_forall. intros c Hc%list_elem_of_In.
  apply bool_decide_eq_true. auto.
Qed.

Lemma covers_false df (labels : list Z) c :
  c ∈ labels → c ∉ index df → covers df labels = false.
Proof.
  intros Hc Hn. unfold covers. apply not_true_is_false.
  rewrite forallb_forall. intros H.
  specialize (H c (proj1 (list_elem_of_In _ _) Hc)).
  by apply bool_decide_eq_true in H.
Qed.

End FrameFacts.

(** ** The reindexing loop *)

Section AlignFacts.
Context {V : Type} `{!Promote V}.
Implicit Types (df : DataFrame V).
Implicit Types (frames panel : gmap string (DataFrame V)).

Lemma reindex_Ok df dates df' :
  reindex df dates = Ok df' → NoDup (index df) ∧ df' = conform df dates.
Proof. unfold reindex. case_decide; [|done]. by intros [= <-]. Qed.

Lemma reindex_NoDup df dates :
  NoDup (index df) → reindex df dates = Ok (conform df dates).
Proof. intros H. unfold reindex. by case_decide. Qed.

(** When the loop returns, the frames of the keys it went through have
    been replaced and the others are as before; it went through a key
    only if the dates of its frame were distinct. *)
Lemma reindex_loop_inv dates keys frames panel :
  NoDup keys →
  reindex_loop dates keys frames = Ok panel →
  (∀ s, panel !! s =
        if decide (s ∈ keys)
        then (λ df, ffill (conform df dates)) <$> frames !! s
        else frames !! s)
  ∧ (∀ s df, s ∈ keys → frames !! s = Some df → NoDup (index df)).
Proof.
  revert frames.
  induction keys as [|k keys IH]; intros frames Hnd Hloop; simpl in Hloop.
  - injection Hloop as <-. split.
    + intros s. case_decide as Hs; [by apply elem_of_nil in Hs|done].
    + by intros s df ?%elem_of_nil.
  - apply NoDup_cons in Hnd as [Hk Hnd].
    destruct (frames !! k) as [df|] eqn:Hfk; [|done].
    destruct (reindex df dates) as [df'|] eqn:Hre; simpl in Hloop; [|done].
    apply reindex_Ok in Hre as [Hdf ->].
    apply IH in Hloop as [Hl Hr]; [|done]. split.
    + intros s. rewrite Hl. destruct (decide (s = k)) as [->|Hsk].
      * rewrite decide_False by done. rewrite lookup_insert_eq, Hfk.
        rewrite decide_True by apply list_elem_of_here. done.
      * rewrite lookup_insert_ne by done.
        destruct (decide (s ∈ keys)) as [Hs|Hs].
        -- rewrite decide_True by (by apply list_elem_of_further). done.
        -- rewrite decide_False; [done|].
           intros [?|?]%elem_of_cons; done.
    + intros s df0 [->|Hs]%elem_of_cons Hf0.
      * by simplify_eq.
      * apply (Hr s df0 Hs). rewrite lookup_insert_ne; [done|].
        by intros <-.
Qed.

Lemma reindex_loop_total dates keys frames :
  NoDup keys →
  (∀ s, s ∈ keys → ∃ df, frames !! s = Some df ∧ NoDup (index df)) →
  ∃ panel, reindex_loop dates keys frames = Ok panel.
Proof.
  revert frames. induction keys as [|k keys IH]; intros frames Hnd Hk; simpl.
  - eauto.
  - apply NoDup_cons in Hnd as [Hkn Hnd].
    destruct (Hk k) as (df & -> & Hdf); [apply list_elem_of_here|].
    rewrite (reindex_NoDup _ _ Hdf); simpl. apply IH; [done|].
    intros s Hs. destruct (Hk s) as (df0 & Hf0 & Hdf0);
      [by apply list_elem_of_further|].
    exists df0. split; [|done]. rewrite lookup_insert_ne; [done|].
    by intros <-.
Qed.

Lemma elem_of_keys frames s :
  s ∈ (map_to_list frames).*1 ↔ is_Some (frames !! s).
Proof.
  rewrite list_elem_of_fmap. split.
  - intros ([s' df] & -> & Hin). apply elem_of_map_to_list in Hin. eauto.
  - intros [df Hdf]. exists (s, df). split; [done|].
    by apply elem_of_map_to_list.
Qed.

(** What a returning alignment has computed. *)
Lemma align_inv frames panel :
  align frames = Ok panel →
  (∀ s, panel !! s =
        (λ df, ffill (conform df (complete_dates frames))) <$> frames !! s)
  ∧ (∀ s df, frames !! s = Some df → NoDup (index df)).
Proof.
  unfold align. intros [Hl Hr]%reindex_loop_inv;
    [|apply NoDup_fst_map_to_list]. split.
  - intros s. rewrite Hl. case_decide as Hs; [done|].
    rewrite elem_of_keys, <-eq_None_not_Some in Hs. by rewrite Hs.
  - intros s df Hs. apply (Hr s df); [|done]. apply elem_of_keys. eauto.
Qed.

(** The alignment returns as soon as no frame repeats a date. *)
Lemma align_total frames :
  (∀ s df, frames !! s = Some df → NoDup (index df)) →
  ∃ panel, align frames = Ok panel.
Proof.
  intros H. apply reindex_loop_total; [apply NoDup_fst_map_to_list|].
  intros s [df Hdf]%elem_of_keys. eauto.
Qed.

Lemma align_if_any_inv frames panel :
  align_if_any frames = Ok panel →
  (∀ s, panel !! s =
        (λ df, ffill (conform df (complete_dates frames))) <$> frames !! s)
  ∧ (∀ s df, frames !! s = Some df → NoDup (index df)).
Proof.
  unfold align_if_any. case_bool_decide as Hsz; [|apply align_inv].
  apply map_size_empty_iff in Hsz as ->. intros [= <-]. split.
  - intros s. by rewrite lookup_empty.
  - intros s df. by rewrite lookup_empty.
Qed.

Lemma align_if_any_total frames :
  (∀ s df, frames !! s = Some df → NoDup (index df)) →
  ∃ panel, align_if_any frames = Ok panel.
Proof.
  intros H. unfold align_if_any. case_bool_decide; [eauto|].
  by apply align_total.
Qed.

End AlignFacts.

(** ** Forward fill *)

Section FillFacts.
Context {V : Type} `{!Promote V}.
Implicit Types (df : DataFrame V) (last cells : list (option V)).

Lemma length_fill_row last cells : length (fill_row last cells) = length cells.
Proof.
  revert last. induction cells as [|c cs IH]; intros last; simpl; [done|].
  by rewrite IH.
Qed.

(** A filled cell is the cell itself when observed, else the cell above. *)
Lemma lookup_fill_row last cells j :
  (j < length cells)%nat →
  mjoin (fill_row last cells !! j) =
    match mjoin (cells !! j) with
    | Some v => Some v
    | None => mjoin (last !! j)
    end.
Proof.
  revert last j. induction cells as [|c cs IH]; intros last j Hj; simpl in *.
  - lia.
  - destruct j as [|j]; simpl.
    + rewrite head_lookup. by destruct c.
    + rewrite IH, lookup_tail by lia. done.
Qed.

Lemma ffill_rows_lengths last (rs : list (Row V)) D cells :
  lookup_row D (ffill_rows last rs) = Some cells →
  ∃ cells0, lookup_row D rs = Some cells0 ∧ length cells = length cells0.
Proof.
  revert last. induction rs as [|[d c] rs IH]; intros last; simpl; [done|].
  case_decide; [|by apply IH].
  intros [= <-]. exists c. by rewrite length_fill_row.
Qed.

Lemma last_seen_ext (f f' : Z → option V) ds D acc :
  (∀ d, f d = f' d) → last_seen f ds D acc = last_seen f' ds D acc.
Proof.
  intros Hf. revert acc. induction ds as [|d ds IH]; intros acc; simpl; [done|].
  rewrite Hf. case_decide; [done|]. apply IH.
Qed.

Lemma last_seen_all_none (f : Z → option V) ds D acc :
  (∀ d, d ∈ ds → f d = None) → last_seen f ds D acc = acc.
Proof.
  revert acc. induction ds as [|d ds IH]; intros acc Hf; simpl; [done|].
  rewrite (Hf d) by apply list_elem_of_here. case_decide; [done|].
  apply IH. intros d' Hd'. apply Hf. by apply list_elem_of_further.
Qed.

(** The scan of [ffill_rows] over rows laid out on the labels [ds]: the
    row of [D] holds, at each position, what [last_seen] carries. *)
Lemma ffill_rows_scan (g : Z → list (option V)) (n : nat) ds last D j :
  (∀ d, length (g d) = n) → (j < n)%nat → D ∈ ds →
  ∃ cells,
    lookup_row D (ffill_rows last (map (λ d, (d, g d)) ds)) = Some cells
    ∧ mjoin (cells !! j)
      = last_seen (λ d, mjoin (g d !! j)) ds D (mjoin (last !! j)).
Proof.
  intros Hg Hj. revert last. induction ds as [|d ds IH]; intros last HD.
  - by apply elem_of_nil in HD.
  - simpl. pose proof (lookup_fill_row last (g d) j) as Hfill.
    rewrite Hg in Hfill. specialize (Hfill Hj).
    destruct (decide (d = D)) as [->|Hne].
    + eexists. split; [done|]. exact Hfill.
    + apply elem_of_cons in HD as [->|HD]; [done|].
      destruct (IH (fill_row last (g d)) HD) as (cells & Hrow & Hc).
      exists cells. split; [done|]. by rewrite Hc, Hfill.
Qed.

(** On strictly increasing labels, the scan carries nothing new to [D]
    when nothing was observed up to [D] ... *)
Lemma last_seen_none (f : Z → option V) ds D acc :
  StronglySorted Z.lt ds → D ∈ ds →
  (∀ d, d ∈ ds → d ≤ D → f d = None) →
  last_seen f ds D acc = acc.
Proof.
  intros Hs. revert acc.
  induction Hs as [|d ds Hs IH Hall]; intros acc HD Hf; simpl; [done|].
  rewrite Forall_forall in Hall.
  destruct (decide (d = D)) as [->|Hne].
  - by rewrite (Hf D) by (apply list_elem_of_here || lia).
  - apply elem_of_cons in HD as [->|HD]; [done|].
    pose proof (Hall D HD).
    rewrite (Hf d) by (apply list_elem_of_here || lia).
    apply IH; [done|]. intros d' Hd'. apply Hf. by apply list_elem_of_further.
Qed.

(** ... and carries the latest observation made up to [D] otherwise. *)
Lemma last_seen_latest (f : Z → option V) ds D acc d0 v :
  StronglySorted Z.lt ds → D ∈ ds → d0 ∈ ds → d0 ≤ D → f d0 = Some v →
  (∀ d, d ∈ ds → d0 < d ≤ D → f d = None) →
  last_seen f ds D acc = Some v.
Proof.
  intros Hs. revert acc.
  induction Hs as [|d ds Hs IH Hall]; intros acc HD Hd0 Hle Hv Hf; simpl.
  - by apply elem_of_nil in HD.
  - rewrite Forall_forall in Hall.
    destruct (decide (d = D)) as [->|Hne].
    + apply elem_of_cons in Hd0 as [->|Hd0]; [by rewrite Hv|].
      pose proof (Hall d0 Hd0). lia.
    + apply elem_of_cons in HD as [->|HD]; [done|].
      pose proof (Hall D HD).
      apply elem_of_cons in Hd0 as [->|Hd0].
      * rewrite Hv. apply last_seen_none; [done..|].
        intros d' Hd' Hle'. pose proof (Hall d' Hd').
        apply Hf; [by apply list_elem_of_further|lia].
      * apply IH; [done..|].
        intros d' Hd'. apply Hf. by apply list_elem_of_further.
Qed.

Lemma lookup_kept_cells (keep : bool) (cells : list (option V)) j :
  mjoin (kept_cells keep cells !! j) = promote_if keep <$> mjoin (cells !! j).
Proof.
  unfold kept_cells, promote_if. destruct keep.
  - by destruct (mjoin (cells !! j)).
  - change (map (option_map promote) cells)
      with (option_map promote <$> cells).
    rewrite list_lookup_fmap. by destruct (cells !! j) as [[v|]|].
Qed.

Lemma length_kept_cells (keep : bool) (cells : list (option V)) :
  length (kept_cells keep cells) = length cells.
Proof. unfold kept_cells. destruct keep; [done|apply length_map]. Qed.

Lemma cell_default_row df (keep : bool) d j :
  mjoin (default (replicate (ncols df) None)
                 (kept_cells keep <$> lookup_row d (rows df)) !! j)
  = promote_if keep <$> cell df d j.
Proof.
  unfold cell. destruct (lookup_row d (rows df)) as [c|]; simpl.
  - apply lookup_kept_cells.
  - destruct (replicate (ncols df) None !! j) as [x|] eqn:E; [|done].
    by apply lookup_replicate in E as [-> _].
Qed.

Lemma length_default_row df (keep : bool) d :
  rectangular df →
  length (default (replicate (ncols df) None)
                  (kept_cells keep <$> lookup_row d (rows df)))
  = ncols df.
Proof.
  intros Hrect. destruct (lookup_row d (rows df)) as [c|] eqn:E; simpl.
  - rewrite length_kept_cells. apply lookup_row_Some in E.
    unfold rectangular in Hrect.
    rewrite Forall_forall in Hrect. by apply (Hrect (d, c)).
  - apply length_replicate.
Qed.

Lemma cell_outside df d j :
  rectangular df → (ncols df ≤ j)%nat → cell df d j = None.
Proof.
  intros Hrect Hj. unfold cell.
  destruct (lookup_row d (rows df)) as [c|] eqn:E; [|done].
  apply lookup_row_Some in E. unfold rectangular in Hrect.
  rewrite Forall_forall in Hrect. specialize (Hrect (d, c) E). simpl in Hrect.
  rewrite (lookup_ge_None_2 _ j); [done|lia].
Qed.

(** The cell of an aligned frame is what the scan of the calendar carries
    to its date: the latest observation, promoted when the reindexing had
    a row to add. *)
Lemma cell_aligned df dates D j :
  rectangular df → D ∈ dates →
  cell (ffill (conform df dates)) D j
  = last_seen (λ d, promote_if (covers df dates) <$> cell df d j) dates D None.
Proof.
  intros Hrect HD. destruct (decide (j < ncols df)%nat) as [Hj|Hj].
  - destruct (ffill_rows_scan
                (λ d, default (replicate (ncols df) None)
                        (kept_cells (covers df dates) <$> lookup_row d (rows df)))
                (ncols df) dates [] D j) as (cells & Hrow & Hc);
      [intros d; by apply length_default_row|done..|].
    unfold cell at 1. simpl. rewrite Hrow, Hc. simpl.
    apply last_seen_ext. intros d. apply cell_default_row.
  - rewrite last_seen_all_none
      by (intros d _; rewrite cell_outside; [done..|lia]).
    unfold cell. simpl.
    destruct (lookup_row D (ffill_rows [] _)) as [cells|] eqn:E; [|done].
    apply ffill_rows_lengths in E as (cells0 & E0 & Hlen).
    rewrite (lookup_row_map
               (λ d, default (replicate (ncols df) None)
                       (kept_cells (covers df dates) <$> lookup_row d (rows df))))
      in E0 by done.
    injection E0 as <-. rewrite length_default_row in Hlen by done.
    rewrite (lookup_ge_None_2 _ j); [done|lia].
Qed.

End FillFacts.

(** ** The aligned panel *)

(** C1. Whatever the mapping of symbols to series (the empty one included),
    as soon as no series repeats a date the alignment step returns a panel
    with the symbols of the input, in which the date index of every series
    is the one calendar [complete_dates frames]: strictly increasing (sorted
    and free of duplicates) and made of exactly the dates that appear in
    some input series, the union and not the intersection. *)
Theorem aligned_index_is_union_calendar {V} `{!Promote V} (frames : gmap string (DataFrame V)) :
  map_Forall (λ _ df, NoDup (index df)) frames →
  ∃ panel,
    align_if_any frames = Ok panel
    ∧ dom panel = dom frames
    ∧ StronglySorted Z.lt (complete_dates frames)
    ∧ (∀ d, d ∈ complete_dates frames
            ↔ ∃ s df, frames !! s = Some df ∧ d ∈ index df)
    ∧ (∀ s df', panel !! s = Some df' → index df' = complete_dates frames).
Proof.
  intros Hnd. destruct (align_if_any_total frames Hnd) as [panel Hal].
  exists panel. destruct (align_if_any_inv _ _ Hal) as [Hl _].
  split; [done|]. split; [|split; [|split]].
  - apply set_eq. intros s. rewrite !elem_of_dom, Hl.
    by rewrite fmap_is_Some.
  - apply complete_dates_sorted.
  - apply elem_of_complete_dates.
  - intros s df'. rewrite Hl. intros (df & _ & ->)%fmap_Some.
    by rewrite index_ffill, index_conform.
Qed.

Lemma aligned_index_is_union_calendar_witness :
  ∃ panel,
    align_if_any Samples.frames2 = Ok panel
    ∧ dom panel = dom Samples.frames2
    ∧ StronglySorted Z.lt (complete_dates Samples.frames2)
    ∧ (∀ d, d ∈ complete_dates Samples.frames2
            ↔ ∃ s df, Samples.frames2 !! s = Some df ∧ d ∈ index df)
    ∧ (∀ s df', panel !! s = Some df'
                → index df' = complete_dates Samples.frames2).
Proof.
  apply (aligned_index_is_union_calendar Samples.frames2).
  apply (bool_decide_unpack _). vm_compute. exact I.
Defined.

(** C2 as stated fails, in two ways. On day 2 the native series of SPY has
    a row whose Open cell is missing: day 2 is the latest native date up to
    day 2, the native value there is missing, and the panel holds 11, the
    value observed on day 1. And the value of the panel need not be an exact
    copy: VOL has the integer 2^53 + 1 on day 1 and no row on days 3 and 4
    of the calendar, so its column is promoted and the panel holds 2^53 on
    day 1. *)
Lemma latest_native_date_counterexample :
  (∃ panel df df',
     align_if_any Samples.frames2 = Ok panel
     ∧ Samples.frames2 !! "SPY"%string = Some df
     ∧ panel !! "SPY"%string = Some df'
     ∧ 2 ∈ index df
     ∧ cell df 2 1 = None
     ∧ cell df' 2 1 = Some 11)
  ∧ (∃ panel df df',
       align_if_any Samples.frames_volume = Ok panel
       ∧ Samples.frames_volume !! "VOL"%string = Some df
       ∧ panel !! "VOL"%string = Some df'
       ∧ 1 ∈ index df
       ∧ cell df 1 0 = Some 9007199254740993
       ∧ cell df' 1 0 = Some 9007199254740992).
Proof.
  split.
  - exists ((λ x, ffill (conform x (complete_dates Samples.frames2)))
            <$> Samples.frames2).
    exists {| columns := Index ["Close"; "Open"]%string;
              rows := rows Samples.spy |}.
    exists (ffill (conform {| columns := Index ["Close"; "Open"]%string;
                              rows := rows Samples.spy |}
                           (complete_dates Samples.frames2))).
    split; [vm_compute; reflexivity|]. split; [vm_compute; reflexivity|].
    split; [vm_compute; reflexivity|].
    split; [apply (bool_decide_unpack _); vm_compute; exact I|].
    split; vm_compute; reflexivity.
  - exists ((λ x, ffill (conform x (complete_dates Samples.frames_volume)))
            <$> Samples.frames_volume).
    exists Samples.volume.
    exists (ffill (conform Samples.volume
                           (complete_dates Samples.frames_volume))).
    split; [vm_compute; reflexivity|]. split; [vm_compute; reflexivity|].
    split; [vm_compute; reflexivity|].
    split; [apply (bool_decide_unpack _); vm_compute; exact I|].
    split; vm_compute; reflexivity.
Qed.

(** C2, amended: the forward-fill law. In a returned panel, take the native
    series [df] of a symbol (one cell per column in every row), its aligned
    series [df'], a date [D] of the calendar and a column [j]. An
    observation is a native cell that is not missing.
    - If [d] is the latest date up to [D] with an observation [v] (a native
      cell that is itself missing does not count: it is filled from the
      observation before it), the panel holds at [D] the value [v],
      unchanged when every calendar date is a native date of the symbol,
      and [promote v] when the reindexing had a row to add; there is no
      interpolation.
    - If there is no observation up to [D], in particular when [D] lies
      before the first observation, the panel holds no value at [D]. *)
Theorem forward_fill_law {V} `{!Promote V}
    (frames panel : gmap string (DataFrame V))
    (s : string) (df df' : DataFrame V) (D : Z) (j : nat) :
  align_if_any frames = Ok panel →
  frames !! s = Some df →
  panel !! s = Some df' →
  rectangular df →
  D ∈ index df' →
  (∀ d v, d ≤ D → cell df d j = Some v →
          (∀ d', d < d' ≤ D → cell df d' j = None) →
          ((∀ c, c ∈ index df' → c ∈ index df) → cell df' D j = Some v)
          ∧ ((∃ c, c ∈ index df' ∧ c ∉ index df) →
             cell df' D j = Some (promote v)))
  ∧ ((∀ d, d ≤ D → cell df d j = None) → cell df' D j = None).
Proof.
  intros Hal Hs Hs' Hrect HD.
  destruct (align_if_any_inv _ _ Hal) as [Hl _].
  rewrite Hl, Hs in Hs'. injection Hs' as <-.
  rewrite index_ffill, index_conform in HD |- *.
  pose proof (complete_dates_sorted frames) as Hsorted.
  rewrite (cell_aligned df _ D j Hrect HD).
  split.
  - intros d v Hle Hv Hgap.
    assert (Hlatest :
      last_seen (λ d0, promote_if (covers df (complete_dates frames))
                         <$> cell df d0 j) (complete_dates frames) D None
      = Some (promote_if (covers df (complete_dates frames)) v)).
    { apply (last_seen_latest _ _ _ _ d); [done..| |done| |].
      - apply elem_of_complete_dates. exists s, df. split; [done|].
        unfold cell in Hv.
        destruct (lookup_row d (rows df)) as [c|] eqn:E; [|done].
        apply lookup_row_is_Some. eauto.
      - by rewrite Hv.
      - intros d' _ Hd'. by rewrite Hgap. }
    rewrite Hlatest. unfold promote_if. split.
    + intros Hall. rewrite (covers_true df (complete_dates frames)); done.
    + intros (c & Hc & Hnc). rewrite (covers_false df (complete_dates frames) c); done.
  - intros Hno. apply last_seen_none; [done..|].
    intros d _ Hle. by rewrite Hno.
Qed.

Lemma forward_fill_law_witness :
  (∃ panel df',
     align_if_any Samples.frames2 = Ok panel
     ∧ panel !! "SPY"%string = Some df'
     ∧ cell df' 3 1 = Some 11
     ∧ cell df' 1 0 = Some 10)
  ∧ (∃ panel df',
       align_if_any Samples.frames_volume = Ok panel
       ∧ panel !! "VOL"%string = Some df'
       ∧ cell df' 4 0 = Some 9007199254740992).
Proof.
  split.
  - pose (df := {| columns := Index ["Close"; "Open"]%string;
                   rows := rows Samples.spy |}).
    pose (df' := ffill (conform df (complete_dates Samples.frames2))).
    pose (panel := (λ x, ffill (conform x (complete_dates Samples.frames2)))
                   <$> Samples.frames2).
    assert (Hal : align_if_any Samples.frames2 = Ok panel)
      by (vm_compute; reflexivity).
    assert (Hs : Samples.frames2 !! "SPY"%string = Some df)
      by (vm_compute; reflexivity).
    assert (Hs' : panel !! "SPY"%string = Some df')
      by (vm_compute; reflexivity).
    assert (Hrect : rectangular df)
      by (apply (bool_decide_unpack _); vm_compute; exact I).
    assert (HD : 3 ∈ index df')
      by (apply (bool_decide_unpack _); vm_compute; exact I).
    assert (HD1 : 1 ∈ index df')
      by (apply (bool_decide_unpack _); vm_compute; exact I).
    assert (Hadd : ∃ c, c ∈ index df' ∧ c ∉ index df).
    { exists 3. split; [exact HD|].
      apply (bool_decide_unpack _). vm_compute. exact I. }
    exists panel, df'. split; [exact Hal|]. split; [exact Hs'|]. split.
    + apply (proj2 (proj1 (forward_fill_law _ _ _ _ _ 3 1%nat
                             Hal Hs Hs' Hrect HD) 1 11
                          ltac:(lia) eq_refl
                          ltac:(intros d' Hd';
                                assert (d' = 2 ∨ d' = 3) as [-> | ->] by lia;
                                reflexivity))).
      exact Hadd.
    + apply (proj2 (proj1 (forward_fill_law _ _ _ _ _ 1 0%nat
                             Hal Hs Hs' Hrect HD1) 1 10
                          ltac:(lia) eq_refl
                          ltac:(intros d' Hd'; lia))).
      exact Hadd.
  - pose (df' := ffill (conform Samples.volume
                          (complete_dates Samples.frames_volume))).
    pose (panel := (λ x, ffill (conform x (complete_dates Samples.frames_volume)))
                   <$> Samples.frames_volume).
    assert (Hal : align_if_any Samples.frames_volume = Ok panel)
      by (vm_compute; reflexivity).
    assert (Hs : Samples.frames_volume !! "VOL"%string = Some Samples.volume)
      by (vm_compute; reflexivity).
    assert (Hs' : panel !! "VOL"%string = Some df')
      by (vm_compute; reflexivity).
    assert (Hrect : rectangular Samples.volume)
      by (apply (bool_decide_unpack _); vm_compute; exact I).
    assert (HD : 4 ∈ index df')
      by (apply (bool_decide_unpack _); vm_compute; exact I).
    exists panel, df'. split; [exact Hal|]. split; [exact Hs'|].
    apply (proj2 (proj1 (forward_fill_law _ _ _ _ _ 4 0%nat
                           Hal Hs Hs' Hrect HD) 1 9007199254740993
                        ltac:(lia) eq_refl
                        ltac:(intros d' Hd';
                              assert (d' = 2 ∨ d' = 3 ∨ d' = 4)
                                as [-> | [-> | ->]] by lia;
                              reflexivity))).
    exists 4. split; [exact HD|].
    apply (bool_decide_unpack _). vm_compute. exact I.
Defined.

(** ** A symbol without data *)

Section EmptySeries.
Context {V : Type} `{!Promote V}.

Lemma fill_row_all_missing (m n : nat) :
  fill_row (replicate m None) (replicate n (@None V)) = replicate n None.
Proof.
  revert m. induction n as [|n IH]; intros m; simpl; [done|].
  destruct m as [|m]; simpl; f_equal.
  - apply (IH 0%nat).
  - apply IH.
Qed.

Lemma ffill_rows_all_missing (m n : nat) (ds : list Z) :
  ffill_rows (replicate m None) (map (λ d, (d, replicate n (@None V))) ds)
  = map (λ d, (d, replicate n None)) ds.
Proof.
  revert m. induction ds as [|d ds IH]; intros m; simpl; [done|].
  rewrite fill_row_all_missing. f_equal. apply IH.
Qed.

Lemma aligned_empty_rows (df : DataFrame V) (dates : list Z) :
  rows df = [] →
  rows (ffill (conform df dates))
  = map (λ d, (d, replicate (ncols df) None)) dates.
Proof.
  intros Hrows. unfold ffill, conform; simpl. rewrite Hrows; simpl.
  apply (ffill_rows_all_missing 0).
Qed.

Lemma cell_all_missing (df : DataFrame V) (n : nat) (ds : list Z) d j :
  rows df = map (λ d, (d, replicate n None)) ds → cell df d j = None.
Proof.
  intros Hrows. unfold cell. rewrite Hrows.
  destruct (lookup_row d _) as [c|] eqn:E; [|done].
  apply lookup_row_Some, list_elem_of_fmap in E as (d' & [= _ ->] & _).
  destruct (replicate n None !! j) as [x|] eqn:E; [|done].
  by apply lookup_replicate in E as [-> _].
Qed.

End EmptySeries.

(** C9. When the series fetched for a symbol has no row at all (and no other
    series repeats a date), the alignment step returns; the calendar is made
    of the dates of the other symbols only; and the entry of that symbol in
    the panel has the calendar as its index, with every cell of every row
    missing. *)
Theorem empty_series_is_all_missing {V} `{!Promote V} (frames : gmap string (DataFrame V))
    (s : string) (df : DataFrame V) :
  frames !! s = Some df →
  rows df = [] →
  (∀ s' df0, s' ≠ s → frames !! s' = Some df0 → NoDup (index df0)) →
  ∃ panel df',
    align_if_any frames = Ok panel
    ∧ panel !! s = Some df'
    ∧ (∀ d, d ∈ complete_dates frames
            ↔ ∃ s' df0, s' ≠ s ∧ frames !! s' = Some df0 ∧ d ∈ index df0)
    ∧ index df' = complete_dates frames
    ∧ rows df' = map (λ d, (d, replicate (ncols df) None)) (complete_dates frames)
    ∧ (∀ d j, cell df' d j = None).
Proof.
  intros Hs Hrows Hothers.
  assert (Hnd : map_Forall (λ (_ : string) (df0 : DataFrame V), NoDup (index df0)) frames).
  { intros s' df0 Hs'. destruct (decide (s' = s)) as [->|Hne]; [|eauto].
    simplify_eq. unfold index. rewrite Hrows. constructor. }
  destruct (align_if_any_total frames Hnd) as [panel Hal].
  destruct (align_if_any_inv _ _ Hal) as [Hl _].
  exists panel, (ffill (conform df (complete_dates frames))).
  split; [done|]. split; [by rewrite Hl, Hs|]. split; [|split; [|split]].
  - intros d. rewrite elem_of_complete_dates. split.
    + intros (s' & df0 & Hs' & Hd). exists s', df0.
      split; [|done]. intros ->. simplify_eq.
      unfold index in Hd. rewrite Hrows in Hd. by apply elem_of_nil in Hd.
    + intros (s' & df0 & _ & Hs' & Hd). eauto.
  - by rewrite index_ffill, index_conform.
  - by apply aligned_empty_rows.
  - intros d j. eapply cell_all_missing. by apply aligned_empty_rows.
Qed.

Lemma empty_series_is_all_missing_witness :
  ∃ panel df',
    align_if_any Samples.frames3 = Ok panel
    ∧ panel !! "GONE"%string = Some df'
    ∧ (∀ d, d ∈ complete_dates Samples.frames3
            ↔ ∃ s' df0, s' ≠ "GONE"%string
                        ∧ Samples.frames3 !! s' = Some df0 ∧ d ∈ index df0)
    ∧ index df' = complete_dates Samples.frames3
    ∧ rows df' = map (λ d, (d, replicate (ncols Samples.none_in_range) None))
                     (complete_dates Samples.frames3)
    ∧ (∀ d j, cell df' d j = None).
Proof.
  apply (empty_series_is_all_missing Samples.frames3 "GONE" Samples.none_in_range).
  - vm_compute. reflexivity.
  - reflexivity.
  - intros s' df0 Hne. unfold Samples.frames3.
    rewrite lookup_insert_ne by done. clear Hne. revert s' df0.
    apply (bool_decide_unpack
             (map_Forall (λ (_ : string) (df0 : DataFrame Z), NoDup (index df0))
                         Samples.frames2)).
    vm_compute. exact I.
Defined.

(** ** The cache and the download loop *)

Section ServiceFacts.
Context {V : Type} `{!Promote V}.
Implicit Types (env : Env V) (st : State V).
Implicit Types (frames panel : gmap string (DataFrame V)).

Lemma get_price_history_cached env symbols st panel :
  price_cache st = Some panel →
  get_price_history env symbols st = (Ok panel, st).
Proof. unfold get_price_history, bind, get_cache. by intros ->. Qed.

Lemma get_price_history_uncached env symbols st :
  price_cache st = None →
  get_price_history env symbols st = fetch_and_align env symbols st.
Proof. unfold get_price_history, bind, get_cache. by intros ->. Qed.

Lemma fetch_and_align_unfold env symbols st :
  fetch_and_align env symbols st =
    match download_loop env symbols ∅ st with
    | (Ok frames, st1) =>
        match align_if_any frames with
        | Ok panel =>
            (Ok panel, {| price_cache := Some panel; downloads := downloads st1 |})
        | Raise e => (Raise e, st1)
        end
    | (Raise e, st1) => (Raise e, st1)
    end.
Proof.
  unfold fetch_and_align, bind, lift, set_cache, ret.
  destruct (download_loop env symbols ∅ st) as [[frames|e] st1]; [|done].
  by destruct (align_if_any frames).
Qed.

Lemma download_loop_cons env symbol rest frames st :
  download_loop env (symbol :: rest) frames st =
    let st1 := {| price_cache := price_cache st;
                  downloads := downloads st ++ [symbol] |} in
    match result_bind (yf_download env (downloads st) symbol) flatten_columns with
    | Ok df => download_loop env rest (<[symbol := df]> frames) st1
    | Raise e => (Raise e, st1)
    end.
Proof.
  simpl. unfold bind, download, lift.
  destruct (yf_download env (downloads st) symbol) as [df|e]; simpl; [|done].
  by destruct (flatten_columns df).
Qed.

(** The loop never touches the cache. *)
Lemma download_loop_cache env symbols frames st :
  price_cache (download_loop env symbols frames st).2 = price_cache st.
Proof.
  revert frames st. induction symbols as [|s symbols IH]; intros frames st.
  - done.
  - rewrite download_loop_cons. cbv zeta.
    destruct (result_bind _ _) as [df|e]; [|done]. by rewrite IH.
Qed.

(** It asks the provider for the symbols in order and stops at the first
    failure. *)
Lemma download_loop_prefix env symbols frames st :
  ∃ k, downloads (download_loop env symbols frames st).2
       = downloads st ++ take k symbols.
Proof.
  revert frames st. induction symbols as [|s symbols IH]; intros frames st.
  - exists 0%nat. simpl. by rewrite app_nil_r.
  - rewrite download_loop_cons. cbv zeta.
    destruct (result_bind _ _) as [df|e].
    + destruct (IH (<[s := df]> frames)
                   {| price_cache := price_cache st;
                      downloads := downloads st ++ [s] |}) as [k Hk].
      exists (S k). rewrite Hk. simpl. by rewrite <-app_assoc.
    + exists 1%nat. simpl. by rewrite take_0.
Qed.

Lemma download_loop_Ok env symbols frames st fr st' :
  download_loop env symbols frames st = (Ok fr, st') →
  downloads st' = downloads st ++ symbols
  ∧ dom fr = dom frames ∪ list_to_set symbols.
Proof.
  revert frames st. induction symbols as [|s symbols IH]; intros frames st.
  - simpl. intros [= <- <-]. rewrite app_nil_r. split; [done|set_solver].
  - rewrite download_loop_cons. cbv zeta.
    destruct (result_bind _ _) as [df|e]; [|done].
    intros [Hd Hdom]%IH. simpl in Hd. rewrite Hd, Hdom, <-app_assoc.
    split; [done|]. rewrite dom_insert_L. set_solver.
Qed.


Lemma fetch_and_align_cache env symbols st r st' :
  fetch_and_align env symbols st = (r, st') →
  downloads st' = downloads (download_loop env symbols ∅ st).2
  ∧ match r with
    | Ok panel => price_cache st' = Some panel
    | Raise _ => price_cache st' = price_cache st
    end.
Proof.
  rewrite fetch_and_align_unfold.
  pose proof (download_loop_cache env symbols ∅ st) as Hc.
  destruct (download_loop env symbols ∅ st) as [[frames|e] st1]; simpl in *.
  - destruct (align_if_any frames); intros [= <- <-]; done.
  - intros [= <- <-]. done.
Qed.

(** The validator reads the state through [get_price_history] only. *)
Lemma validate_cached env st panel :
  price_cache st = Some panel →
  ∃ b, validate_data_integrity env st = (b, st).
Proof.
  intros Hc. unfold validate_data_integrity, validate_body, bind, load_trades, lift.
  destruct (result_bind _ _) as [[|t ts]|e]; simpl; eauto.
  rewrite (get_price_history_cached _ _ _ _ Hc). simpl. eauto.
Qed.

(** With a populated cache, calls other than [clear_cache] leave the state
    as it is, so each call answers as if it were the first. *)
Lemma run_calls_cached env cs st panel :
  price_cache st = Some panel →
  forallb (λ c, negb (is_clear c)) cs = true →
  run_calls env cs st = (map (λ c, (run_call env c st).1) cs, st).
Proof.
  intros Hc. induction cs as [|c cs IH]; [done|].
  cbn [forallb]. intros [Hclear Hrest]%andb_true_iff.
  assert (∃ a, run_call env c st = (a, st)) as [a Ha].
  { destruct c as [symbols| |]; simpl in *; [| |done].
    - rewrite (get_price_history_cached _ _ _ _ Hc). eauto.
    - destruct (validate_cached env st panel Hc) as [b ->]. eauto. }
  cbn [run_calls map]. rewrite Ha, IH by done. done.
Qed.

Lemma check_symbols_missing (symbols : list string) panel s :
  s ∈ symbols → panel !! s = None → check_symbols symbols panel = false.
Proof.
  intros Hs Hp. induction symbols as [|s' symbols IH]; simpl.
  - by apply elem_of_nil in Hs.
  - destruct (panel !! s') as [df|] eqn:E; [|done].
    destruct (empty df); [done|]. apply IH.
    apply elem_of_cons in Hs as [->|Hs]; [congruence|done].
Qed.

Lemma check_symbols_true (symbols : list string) panel :
  check_symbols symbols panel = true
  ↔ ∀ s, s ∈ symbols → ∃ df, panel !! s = Some df ∧ empty df = false.
Proof.
  induction symbols as [|s' symbols IH]; simpl.
  - split; [|done]. by intros _ s ?%elem_of_nil.
  - destruct (panel !! s') as [df|] eqn:E.
    + destruct (empty df) eqn:Hempty.
      * split; [done|]. intros H.
        destruct (H s') as (df' & ? & ?); [apply list_elem_of_here|].
        congruence.
      * rewrite IH. split.
        -- intros H s [->|Hs]%elem_of_cons; eauto.
        -- intros H s Hs. apply H. by apply list_elem_of_further.
    + split; [done|]. intros H.
      destruct (H s') as (df' & ? & ?); [apply list_elem_of_here|].
      congruence.
Qed.

(** X3. The validator answers [True] exactly when the trades load and are not
    empty, [get_price_history] returns for the tracked symbols, and every
    tracked symbol has in the panel a frame that is not [empty]; in every
    other case, an exception of the body included, it answers [False]. *)
Lemma validate_data_integrity_true env st :
  (validate_data_integrity env st).1 = true
  ↔ ∃ t ts panel,
      result_bind (trades_xlsx env) coerce_rows = Ok (t :: ts)
      ∧ (get_price_history env (tracked_symbols env) st).1 = Ok panel
      ∧ ∀ s, s ∈ tracked_symbols env →
             ∃ df, panel !! s = Some df ∧ empty df = false.
Proof.
  unfold validate_data_integrity, validate_body, bind, load_trades, lift.
  destruct (result_bind _ _) as [[|t ts]|e]; simpl.
  - split; [done|]. by intros (? & ? & ? & ? & _).
  - destruct (get_price_history env (tracked_symbols env) st)
      as [[panel|e] st']; simpl.
    + rewrite check_symbols_true. split.
      * intros H. by exists t, ts, panel.
      * intros (? & ? & panel' & _ & [= <-] & H). done.
    + split; [done|]. by intros (? & ? & ? & _ & ? & _).
  - split; [done|]. by intros (? & ? & ? & ? & _).
Qed.

(** A reindexed frame with columns is [empty] only on an empty calendar. *)
Lemma aligned_not_empty (df : DataFrame V) (dates : list Z) :
  dates ≠ [] → ncols df ≠ 0%nat → empty (ffill (conform df dates)) = false.
Proof.
  intros Hd Hn. unfold empty.
  rewrite (bool_decide_eq_false_2 (ncols _ = 0%nat)) by done.
  rewrite bool_decide_eq_false_2; [done|].
  change (length (rows (ffill (conform df dates))))
    with (length (ffill_rows [] (rows (conform df dates)))).
  intros Hlen. apply Hd. apply nil_length_inv.
  rewrite <-(index_conform df dates). unfold index.
  rewrite <-(index_ffill_rows [] (rows (conform df dates))).
  by rewrite length_fmap.
Qed.


End ServiceFacts.

(** ** The cache *)

(** C3. Once a call of [get_price_history] has returned a panel, the cache
    holds that panel, and every later call, for the same symbols or for any
    others, returns it and leaves the state as it is, so that the provider is
    not asked again; this goes on through any sequence of calls of the
    service that contains no [clear_cache]. *)
Theorem cached_panel_is_reused {V} `{!Promote V} (env : Env V) (symbols : list string)
    (st st' : State V) (panel : gmap string (DataFrame V)) :
  get_price_history env symbols st = (Ok panel, st') →
  price_cache st' = Some panel
  ∧ (∀ symbols', get_price_history env symbols' st' = (Ok panel, st'))
  ∧ (∀ cs answers st'',
       forallb (λ c, negb (is_clear c)) cs = true →
       run_calls env cs st' = (answers, st'') →
       st'' = st'
       ∧ downloads st'' = downloads st'
       ∧ ∀ r, Returned r ∈ answers → r = Ok panel).
Proof.
  intros Hget.
  assert (Hc : price_cache st' = Some panel).
  { destruct (price_cache st) as [p|] eqn:E.
    - rewrite (get_price_history_cached _ _ _ _ E) in Hget. by simplify_eq.
    - rewrite get_price_history_uncached in Hget by done.
      by apply fetch_and_align_cache in Hget as [_ ?]. }
  split; [done|]. split.
  - intros symbols'. by apply get_price_history_cached.
  - intros cs answers st'' Hcs Hrun.
    rewrite (run_calls_cached _ _ _ _ Hc Hcs) in Hrun.
    injection Hrun as <- <-. split; [done|]. split; [done|].
    intros r ([symbols'| |] & Ha & _)%list_elem_of_fmap; simpl in Ha.
    + rewrite (get_price_history_cached _ _ _ _ Hc) in Ha. by injection Ha.
    + by destruct (validate_data_integrity env st').
    + done.
Qed.

Lemma cached_panel_is_reused_witness :
  ∃ panel st',
    get_price_history (Samples.env []) ["SPY"; "QQQ"]%string init = (Ok panel, st')
    ∧ downloads st' = ["SPY"; "QQQ"]%string
    ∧ get_price_history (Samples.env []) ["DOWN"]%string st' = (Ok panel, st')
    ∧ get_price_history (Samples.env []) [] st' = (Ok panel, st').
Proof.
  pose (out := get_price_history (Samples.env []) ["SPY"; "QQQ"]%string init).
  assert (Hret : ∃ panel, out.1 = Ok panel) by (vm_compute; eauto).
  destruct Hret as [panel Hpanel].
  assert (Hget : get_price_history (Samples.env []) ["SPY"; "QQQ"]%string init
                 = (Ok panel, out.2)).
  { rewrite <-Hpanel. apply surjective_pairing. }
  exists panel, out.2. split; [exact Hget|]. split; [vm_compute; reflexivity|].
  destruct (cached_panel_is_reused _ _ _ _ _ Hget) as (_ & Hany & _).
  split; apply Hany.
Defined.

(** C5. When the download loop raises, or the alignment of the downloaded
    frames raises, [get_price_history] raises that same exception and the
    cache is what it was before the call (nothing is stored); the next call
    starts the whole download and alignment again, asking the provider for
    its first symbol anew. *)
Theorem failure_leaves_cache_untouched {V} `{!Promote V} (env : Env V) (symbols : list string)
    (st st' : State V) (e : exn) :
  price_cache st = None →
  (download_loop env symbols ∅ st = (Raise e, st')
   ∨ ∃ frames, download_loop env symbols ∅ st = (Ok frames, st')
               ∧ align_if_any frames = Raise e) →
  get_price_history env symbols st = (Raise e, st')
  ∧ price_cache st' = price_cache st
  ∧ (∀ symbols', get_price_history env symbols' st'
                 = fetch_and_align env symbols' st')
  ∧ (∀ s rest, ∃ k,
       downloads (get_price_history env (s :: rest) st').2
       = downloads st' ++ s :: take k rest).
Proof.
  intros Hc Hraise.
  assert (Hget : get_price_history env symbols st = (Raise e, st')).
  { rewrite get_price_history_uncached, fetch_and_align_unfold by done.
    destruct Hraise as [->|(frames & -> & ->)]; done. }
  assert (Hc' : price_cache st' = None).
  { rewrite get_price_history_uncached in Hget by done.
    apply fetch_and_align_cache in Hget as [_ Hc']. congruence. }
  split; [done|]. split; [congruence|]. split.
  - intros symbols'. by apply get_price_history_uncached.
  - intros s rest.
    assert (downloads (get_price_history env (s :: rest) st').2
            = downloads (download_loop env (s :: rest) ∅ st').2) as ->.
    { destruct (get_price_history env (s :: rest) st') as [r st''] eqn:E.
      rewrite get_price_history_uncached in E by done.
      by apply fetch_and_align_cache in E as [? _]. }
    rewrite download_loop_cons. cbv zeta.
    destruct (result_bind _ _) as [df|e'].
    + destruct (download_loop_prefix env rest (<[s := df]> ∅)
                  {| price_cache := price_cache st';
                     downloads := downloads st' ++ [s] |}) as [k' Hk'].
      exists k'. rewrite Hk'. simpl. by rewrite <-app_assoc.
    + exists 0%nat. simpl. by rewrite take_0.
Qed.

Lemma failure_leaves_cache_untouched_witness :
  (get_price_history (Samples.env []) ["SPY"; "DOWN"; "QQQ"]%string init
   = (Raise (ProviderError "timeout"),
      {| price_cache := None; downloads := ["SPY"; "DOWN"]%string |}))
  ∧ (get_price_history (Samples.env []) ["DUP"]%string init
     = (Raise ValueError,
        {| price_cache := None; downloads := ["DUP"]%string |})).
Proof.
  split.
  - apply (failure_leaves_cache_untouched (Samples.env [])
             ["SPY"; "DOWN"; "QQQ"]%string init); [reflexivity|].
    left. vm_compute. reflexivity.
  - apply (failure_leaves_cache_untouched (Samples.env [])
             ["DUP"]%string init); [reflexivity|].
    right. exists (<["DUP"%string := Samples.twice]> ∅).
    split; vm_compute; reflexivity.
Defined.




(** C8. With an empty cache, [get_price_history] on the empty list of
    symbols returns the empty panel without raising; no download is made,
    and the empty panel is what the cache holds afterwards. *)
Theorem no_symbols_gives_empty_panel {V} `{!Promote V} (env : Env V) (st : State V) :
  price_cache st = None →
  get_price_history env [] st
  = (Ok ∅, {| price_cache := Some ∅; downloads := downloads st |}).
Proof.
  intros Hc. rewrite get_price_history_uncached, fetch_and_align_unfold by done.
  simpl. unfold ret, align_if_any.
  by rewrite bool_decide_eq_true_2 by apply map_size_empty.
Qed.

Lemma no_symbols_gives_empty_panel_witness :
  get_price_history (Samples.env ["SPY"]%string) [] init
  = (Ok ∅, {| price_cache := Some ∅; downloads := [] |}).
Proof.
  apply (no_symbols_gives_empty_panel (Samples.env ["SPY"]%string) init).
  reflexivity.
Defined.

(** ** The validator *)

(** C10. When the cache already holds a panel that lacks one of the tracked
    symbols, [validate_data_integrity] returns [False] and leaves the state
    as it is: no download is made. It goes on returning [False] through any
    sequence of calls of the service that contains no [clear_cache]. *)
Theorem stale_cache_fails_validation {V} `{!Promote V} (env : Env V) (st : State V)
    (panel : gmap string (DataFrame V)) (s : string) :
  price_cache st = Some panel →
  s ∈ tracked_symbols env →
  panel !! s = None →
  validate_data_integrity env st = (false, st)
  ∧ (∀ cs answers st',
       forallb (λ c, negb (is_clear c)) cs = true →
       run_calls env cs st = (answers, st') →
       st' = st
       ∧ downloads st' = downloads st
       ∧ ∀ b, Verdict b ∈ answers → b = false).
Proof.
  intros Hc Hs Hp.
  assert (Hval : validate_data_integrity env st = (false, st)).
  { unfold validate_data_integrity, validate_body, bind, load_trades, lift.
    destruct (result_bind _ _) as [[|t ts]|e]; simpl; [done| |done].
    rewrite (get_price_history_cached _ _ _ _ Hc). simpl.
    by rewrite (check_symbols_missing _ _ s). }
  split; [done|]. intros cs answers st' Hcs Hrun.
  rewrite (run_calls_cached _ _ _ _ Hc Hcs) in Hrun.
  injection Hrun as <- <-. split; [done|]. split; [done|].
  intros b ([symbols| |] & Ha & _)%list_elem_of_fmap; simpl in Ha.
  - by destruct (get_price_history env symbols st).
  - rewrite Hval in Ha. by injection Ha.
  - done.
Qed.

Lemma stale_cache_fails_validation_witness :
  let st := (get_price_history (Samples.env ["SPY"; "QQQ"]%string) [] init).2 in
  price_cache st = Some ∅
  ∧ validate_data_integrity (Samples.env ["SPY"; "QQQ"]%string) st = (false, st).
Proof.
  intros st. split; [reflexivity|].
  apply (stale_cache_fails_validation
           (Samples.env ["SPY"; "QQQ"]%string) st ∅ "QQQ").
  - reflexivity.
  - apply (bool_decide_unpack _). vm_compute. exact I.
  - reflexivity.
Defined.

(** C4, at an input where the code departs from it. Two symbols are
    tracked; the provider has rows for the first and answers the second with
    a frame that has its columns and no row. The validator returns [True],
    although the series of the second symbol is empty: the alignment has
    given that frame one row of missing values per calendar date, so that
    [empty] no longer holds of it. *)
Lemma validate_accepts_symbol_without_data :
  let env := Samples.env ["SPY"; "GONE"]%string in
  yf_download env ["SPY"]%string "GONE"%string = Ok Samples.none_in_range
  ∧ rows Samples.none_in_range = []
  ∧ ∃ st' panel df,
      validate_data_integrity env init = (true, st')
      ∧ price_cache st' = Some panel
      ∧ panel !! "GONE"%string = Some df
      ∧ empty df = false
      ∧ ∀ d j, cell df d j = None.
Proof.
  intros env. split; [reflexivity|]. split; [reflexivity|].
  pose (out := validate_data_integrity env init).
  exists out.2.
  exists (<["GONE"%string := ffill (conform Samples.none_in_range [1; 2; 5])]>
            (<["SPY"%string :=
                 ffill (conform {| columns := Index ["Close"; "Open"]%string;
                                   rows := rows Samples.spy |} [1; 2; 5])]> ∅)).
  exists (ffill (conform Samples.none_in_range [1; 2; 5])).
  split; [vm_compute; reflexivity|]. split; [vm_compute; reflexivity|].
  split; [vm_compute; reflexivity|]. split; [reflexivity|].
  intros d j. eapply cell_all_missing. by apply aligned_empty_rows.
Qed.

(** ** Column structure *)

(** C6 as stated fails: the provider answers with the two-level columns
    (Close, SPY) and (Open, SPY); the panel entry has both fields, with two
    values on day 1. *)
Lemma one_field_per_date_counterexample :
  is_MultiIndex (columns Samples.spy) = true
  ∧ ∃ panel st' df,
      get_price_history (Samples.env []) ["SPY"]%string init = (Ok panel, st')
      ∧ panel !! "SPY"%string = Some df
      ∧ columns df = Index ["Close"; "Open"]%string
      ∧ ncols df ≠ 1%nat
      ∧ cell df 1 0 = Some 10
      ∧ cell df 1 1 = Some 11.
Proof.
  split; [reflexivity|].
  pose (out := get_price_history (Samples.env []) ["SPY"]%string init).
  pose (df := ffill (conform {| columns := Index ["Close"; "Open"]%string;
                                rows := rows Samples.spy |} [1; 2; 5])).
  exists (<["SPY"%string := df]> ∅), out.2, df.
  split; [vm_compute; reflexivity|]. split; [vm_compute; reflexivity|].
  split; [reflexivity|]. split; [by vm_compute|]. split; reflexivity.
Qed.

(** C6, amended. A column index that is flat or has at least two levels
    goes through the flattening, which only relabels: the rows, hence every
    field of every date, and the number of columns are kept; a flat index is
    left alone, a two-level index becomes the flat index of its first
    components, and an index with more levels keeps its levels but for
    level 1, every label losing its component at position 1. The alignment
    keeps the column index of every frame. *)
Theorem flattening_keeps_every_field {V} `{!Promote V} (df : DataFrame V) :
  match columns df with
  | Index _ => True
  | MultiIndex nlevels _ => (2 ≤ nlevels)%nat
  end →
  (∃ df',
     flatten_columns df = Ok df'
     ∧ rows df' = rows df
     ∧ ncols df' = ncols df
     ∧ (∀ labels, columns df = Index labels → df' = df)
     ∧ (∀ tuples, columns df = MultiIndex 2 tuples →
                  columns df' = Index (map (λ t, hd ""%string t) tuples))
     ∧ (∀ nlevels tuples,
          columns df = MultiIndex nlevels tuples → (3 ≤ nlevels)%nat →
          columns df'
          = MultiIndex (nlevels - 1)
                       (map (λ t, take 1 t ++ drop 2 t) tuples)))
  ∧ (∀ (frames panel : gmap string (DataFrame V)) s,
       align_if_any frames = Ok panel →
       frames !! s = Some df →
       ∃ df', panel !! s = Some df' ∧ columns df' = columns df).
Proof.
  intros Hcols. split.
  - unfold flatten_columns, ncols.
    destruct df as [[labels|n tuples] rs]; simpl in *.
    + exists {| columns := Index labels; rows := rs |}. repeat split; done.
    + destruct n as [|[|[|n]]]; simpl; [lia|lia| |].
      * eexists. split; [done|]. simpl.
        split; [done|]. split; [by rewrite length_map|]. split; [done|].
        split; [by intros tuples' [= ->]|].
        intros n' tuples' [= <- _]. lia.
      * eexists. split; [done|]. simpl.
        split; [done|]. split; [by rewrite length_map|]. split; [done|].
        split; [done|].
        intros n' tuples' [= <- <-] _. simpl. by rewrite ?Nat.sub_0_r.
  - intros frames panel s Hal Hs. destruct (align_if_any_inv _ _ Hal) as [Hl _].
    eexists. rewrite Hl, Hs. split; done.
Qed.

Lemma flattening_keeps_every_field_witness :
  (∃ df',
     flatten_columns Samples.spy = Ok df'
     ∧ rows df' = rows Samples.spy
     ∧ ncols df' = ncols Samples.spy
     ∧ columns df' = Index ["Close"; "Open"]%string)
  ∧ (∃ df',
       flatten_columns Samples.three_levels = Ok df'
       ∧ rows df' = rows Samples.three_levels
       ∧ columns df'
         = MultiIndex 2 [["Close"; "USD"]; ["Open"; "USD"]]%string).
Proof.
  split.
  - destruct (proj1 (flattening_keeps_every_field Samples.spy
                       ltac:(simpl; lia)))
      as (df' & Hfl & Hrows & Hn & _ & H2 & _).
    exists df'. split; [exact Hfl|]. split; [exact Hrows|].
    split; [exact Hn|]. exact (H2 _ eq_refl).
  - destruct (proj1 (flattening_keeps_every_field Samples.three_levels
                       ltac:(simpl; lia)))
      as (df' & Hfl & Hrows & _ & _ & _ & H3).
    exists df'. split; [exact Hfl|]. split; [exact Hrows|].
    exact (H3 _ _ eq_refl ltac:(lia)).
Defined.

(** ** Loading the trades *)

Section LoadFacts.
Context {V : Type}.
Implicit Types (rs : list (result (Trade V))) (ts : list (Trade V)).

Lemma coerce_rows_Ok rs ts : coerce_rows rs = Ok ts ↔ rs = Ok <$> ts.
Proof.
  revert ts. induction rs as [|r rs IH]; intros ts; simpl.
  - split; [by intros [= <-]|by destruct ts].
  - destruct r as [t|e]; simpl; [|split; [done|by destruct ts]].
    destruct (coerce_rows rs) as [ts'|e'] eqn:E; simpl.
    + split.
      * intros [= <-]. simpl. f_equal. by apply IH.
      * destruct ts as [|t0 ts0]; [done|]. intros [= -> H].
        apply IH in H. by injection H as ->.
    + split; [done|]. destruct ts as [|t0 ts0]; [done|]. intros [= -> H].
      by apply IH in H.
Qed.

Lemma coerce_rows_Raise rs e :
  coerce_rows rs = Raise e ↔ ∃ pre post, rs = (Ok <$> pre) ++ Raise e :: post.
Proof.
  induction rs as [|r rs IH]; simpl.
  - split; [done|]. intros (pre & post & H). by destruct pre.
  - destruct r as [t|e0]; simpl.
    + destruct (coerce_rows rs) as [ts'|e'] eqn:E; simpl.
      * split; [done|]. intros (pre & post & H).
        destruct pre as [|t0 pre]; simpl in H; [done|]. injection H as -> H.
        destruct IH as [_ IH]. discriminate IH. eauto.
      * split.
        -- intros [= ->]. destruct IH as [IH _].
           destruct (IH eq_refl) as (pre & post & ->). by exists (t :: pre), post.
        -- intros (pre & post & H).
           destruct pre as [|t0 pre]; simpl in H; [done|]. injection H as -> H.
           apply IH. eauto.
    + split.
      * intros [= ->]. by exists [], rs.
      * intros (pre & post & H). destruct pre as [|t0 pre]; simpl in H; [|done].
        by injection H as ->.
Qed.

End LoadFacts.

(** X1. [load_trades] returns a list of trades exactly when the workbook
    reads and every one of its rows coerces: the list then holds one trade
    per row, in the order of the rows. It changes nothing of the service. *)
Theorem load_trades_returns_every_row {V} (env : Env V) (st st' : State V)
    (trades : list (Trade V)) :
  load_trades env st = (Ok trades, st')
  ↔ st' = st ∧ trades_xlsx env = Ok (Ok <$> trades).
Proof.
  unfold load_trades, lift. split.
  - intros [= H <-]. split; [done|].
    destruct (trades_xlsx env) as [rs|e]; simpl in H; [|done].
    f_equal. by apply coerce_rows_Ok.
  - intros [-> Hx]. rewrite Hx. simpl. f_equal. by apply coerce_rows_Ok.
Qed.

(** X2. [load_trades] raises exactly the exception of the workbook read,
    or else that of the first row that does not coerce, whatever the rows
    after it; no trade is returned then and nothing of the service
    changes. *)
Theorem load_trades_raises_first_failure {V} (env : Env V) (st st' : State V)
    (e : exn) :
  load_trades env st = (Raise e, st')
  ↔ st' = st
    ∧ (trades_xlsx env = Raise e
       ∨ ∃ pre post, trades_xlsx env = Ok ((Ok <$> pre) ++ Raise e :: post)).
Proof.
  unfold load_trades, lift. split.
  - intros [= H <-]. split; [done|].
    destruct (trades_xlsx env) as [rs|e0]; simpl in H.
    + right. apply coerce_rows_Raise in H as (pre & post & ->). eauto.
    + left. congruence.
  - intros [-> [Hx|(pre & post & Hx)]]; rewrite Hx; simpl; [done|].
    f_equal. apply coerce_rows_Raise. eauto.
Qed.

(** ** The validator and the cache *)

Section ValidatorFacts.
Context {V : Type} `{!Promote V}.
Implicit Types (env : Env V) (st : State V).

Lemma get_price_history_Ok_cache env symbols st st'
    (panel : gmap string (DataFrame V)) :
  get_price_history env symbols st = (Ok panel, st') →
  price_cache st' = Some panel.
Proof.
  intros Hget. destruct (price_cache st) as [p|] eqn:E.
  - rewrite (get_price_history_cached _ _ _ _ E) in Hget. by simplify_eq.
  - rewrite get_price_history_uncached in Hget by done.
    by apply fetch_and_align_cache in Hget as [_ ?].
Qed.

Lemma validate_unfold env st :
  validate_data_integrity env st =
    match result_bind (trades_xlsx env) coerce_rows with
    | Ok (_ :: _) =>
        match get_price_history env (tracked_symbols env) st with
        | (Ok panel, st') => (check_symbols (tracked_symbols env) panel, st')
        | (Raise _, st') => (false, st')
        end
    | _ => (false, st)
    end.
Proof.
  unfold validate_data_integrity, validate_body, bind, load_trades, lift.
  destruct (result_bind _ _) as [[|t ts]|e]; simpl; [done| |done].
  by destruct (get_price_history env (tracked_symbols env) st) as [[panel|e] st'].
Qed.

End ValidatorFacts.

(** X4. When the trades cannot be loaded, or the loaded list is empty, the
    validator answers [False] before it looks at any price: the state is
    what it was, so that no download is made and an empty cache stays
    empty. *)
Theorem validation_stops_without_trades {V} `{!Promote V} (env : Env V) (st : State V) :
  (∃ e, (load_trades env st).1 = Raise e) ∨ (load_trades env st).1 = Ok [] →
  validate_data_integrity env st = (false, st).
Proof.
  rewrite validate_unfold. unfold load_trades, lift. simpl.
  intros [[e ->]| ->]; done.
Qed.

Lemma validation_stops_without_trades_witness :
  validate_data_integrity Samples.env_no_workbook init = (false, init)
  ∧ validate_data_integrity Samples.env_bad_row init = (false, init).
Proof.
  split.
  - apply (validation_stops_without_trades Samples.env_no_workbook init).
    left. exists FileNotFoundError. reflexivity.
  - apply (validation_stops_without_trades Samples.env_bad_row init).
    left. exists ValueError. reflexivity.
Defined.

(** X5. A validation that answers [True] leaves in the cache a panel with a
    frame that is not [empty] for every tracked symbol, and from then on
    [get_price_history] returns that panel for any list of symbols, without
    a download. *)
Theorem passed_validation_caches_tracked_panel {V} `{!Promote V} (env : Env V)
    (st st' : State V) :
  validate_data_integrity env st = (true, st') →
  ∃ panel,
    price_cache st' = Some panel
    ∧ (∀ s, s ∈ tracked_symbols env →
            ∃ df, panel !! s = Some df ∧ empty df = false)
    ∧ (∀ symbols, get_price_history env symbols st' = (Ok panel, st')).
Proof.
  rewrite validate_unfold.
  destruct (result_bind _ _) as [[|t ts]|e]; [done| |done].
  destruct (get_price_history env (tracked_symbols env) st)
    as [[panel|e] st1] eqn:Hget; [|done].
  intros [= Hcheck <-]. exists panel.
  apply get_price_history_Ok_cache in Hget.
  split; [done|]. split; [by apply check_symbols_true|].
  intros symbols. by apply get_price_history_cached.
Qed.

Lemma passed_validation_caches_tracked_panel_witness :
  let env := Samples.env ["SPY"; "QQQ"]%string in
  ∃ st' panel,
    validate_data_integrity env init = (true, st')
    ∧ price_cache st' = Some panel
    ∧ get_price_history env ["GONE"]%string st' = (Ok panel, st').
Proof.
  intros env. pose (out := validate_data_integrity env init).
  assert (Hval : validate_data_integrity env init = (true, out.2))
    by (vm_compute; reflexivity).
  destruct (passed_validation_caches_tracked_panel env init out.2 Hval)
    as (panel & Hc & _ & Hany).
  exists out.2, panel. split; [exact Hval|]. split; [exact Hc|]. apply Hany.
Defined.

(** X6. With no tracked symbol the price check has nothing to reject: as
    soon as the trades load and are not empty the validator answers [True],
    whatever the cache holds. *)
Theorem nothing_tracked_passes_validation {V} `{!Promote V} (env : Env V) (st : State V)
    (t : Trade V) (ts : list (Trade V)) :
  tracked_symbols env = [] →
  load_trades env st = (Ok (t :: ts), st) →
  (validate_data_integrity env st).1 = true.
Proof.
  intros Htr Hload. rewrite validate_unfold.
  unfold load_trades, lift in Hload. injection Hload as ->. rewrite Htr.
  destruct (price_cache st) as [p|] eqn:E.
  - by rewrite (get_price_history_cached _ _ _ _ E).
  - rewrite get_price_history_uncached, fetch_and_align_unfold by done.
    simpl. unfold ret, align_if_any.
    by rewrite bool_decide_eq_true_2 by apply map_size_empty.
Qed.

Lemma nothing_tracked_passes_validation_witness :
  (validate_data_integrity (Samples.env []) init).1 = true.
Proof.
  apply (nothing_tracked_passes_validation (Samples.env []) init
           Samples.one_trade []); reflexivity.
Defined.

(** ** What the download loop leaves in the dict *)

Section DownloadFacts.
Context {V : Type} `{!Promote V}.
Implicit Types (env : Env V) (st : State V).
Implicit Types (frames panel : gmap string (DataFrame V)).

Lemma download_loop_lookup_other env symbols frames st fr st' s :
  download_loop env symbols frames st = (Ok fr, st') →
  s ∉ symbols → fr !! s = frames !! s.
Proof.
  revert frames st. induction symbols as [|k symbols IH]; intros frames st.
  - simpl. by intros [= <- <-].
  - rewrite download_loop_cons. cbv zeta.
    destruct (result_bind _ _) as [df|e]; [|done].
    intros Hloop [Hk Hs]%not_elem_of_cons.
    rewrite (IH _ _ Hloop Hs). by rewrite lookup_insert_ne.
Qed.

(** The frame kept for a symbol is the flattened answer to the last request
    made for it. *)
Lemma download_loop_last env pre s post frames st fr st' :
  download_loop env (pre ++ s :: post) frames st = (Ok fr, st') →
  s ∉ post →
  ∃ df df0,
    yf_download env (downloads st ++ pre) s = Ok df
    ∧ flatten_columns df = Ok df0
    ∧ fr !! s = Some df0.
Proof.
  revert frames st. induction pre as [|p pre IH]; intros frames st Hloop Hs.
  - simpl app in Hloop. rewrite download_loop_cons in Hloop. cbv zeta in Hloop.
    rewrite app_nil_r.
    destruct (yf_download env (downloads st) s) as [df|e]; simpl in Hloop; [|done].
    destruct (flatten_columns df) as [df0|e] eqn:Hfl; [|done].
    exists df, df0. split; [done|]. split; [done|].
    rewrite (download_loop_lookup_other _ _ _ _ _ _ _ Hloop Hs).
    apply lookup_insert_eq.
  - simpl app in Hloop. rewrite download_loop_cons in Hloop. cbv zeta in Hloop.
    destruct (result_bind _ _) as [df1|e]; [|done].
    destruct (IH _ _ Hloop Hs) as (df & df0 & Hdl & Hfl & Hfr).
    simpl in Hdl. rewrite <-app_assoc in Hdl. by exists df, df0.
Qed.

Lemma align_if_any_dom frames panel :
  align_if_any frames = Ok panel → dom panel = dom frames.
Proof.
  intros [Hl _]%align_if_any_inv. apply set_eq. intros s.
  by rewrite !elem_of_dom, Hl, fmap_is_Some.
Qed.

Lemma get_price_history_fresh env symbols st panel st' :
  price_cache st = None →
  get_price_history env symbols st = (Ok panel, st') →
  ∃ frames st1,
    download_loop env symbols ∅ st = (Ok frames, st1)
    ∧ align_if_any frames = Ok panel.
Proof.
  intros Hc. rewrite get_price_history_uncached, fetch_and_align_unfold by done.
  destruct (download_loop env symbols ∅ st) as [[frames|e] st1]; [|done].
  destruct (align_if_any frames) as [p|e] eqn:Hal; [|done].
  intros [= <- <-]. eauto.
Qed.

End DownloadFacts.

(** X7. A panel computed by [get_price_history] (the cache was empty) has an
    entry for each requested symbol and for nothing else; a symbol listed
    twice has one entry. *)
Theorem panel_has_the_requested_symbols {V} `{!Promote V} (env : Env V)
    (symbols : list string) (st st' : State V)
    (panel : gmap string (DataFrame V)) :
  price_cache st = None →
  get_price_history env symbols st = (Ok panel, st') →
  dom panel = list_to_set symbols.
Proof.
  intros Hc Hget.
  destruct (get_price_history_fresh _ _ _ _ _ Hc Hget)
    as (frames & st1 & Hloop & Hal).
  rewrite (align_if_any_dom _ _ Hal).
  apply download_loop_Ok in Hloop as [_ ->]. set_solver.
Qed.

Lemma panel_has_the_requested_symbols_witness :
  ∃ panel st',
    get_price_history (Samples.env []) ["SPY"; "QQQ"; "SPY"]%string init
    = (Ok panel, st')
    ∧ dom panel = list_to_set ["SPY"; "QQQ"; "SPY"]%string.
Proof.
  pose (out := get_price_history (Samples.env [])
                 ["SPY"; "QQQ"; "SPY"]%string init).
  assert (Hret : ∃ panel, out.1 = Ok panel) by (vm_compute; eauto).
  destruct Hret as [panel Hpanel].
  assert (Hget : get_price_history (Samples.env [])
                   ["SPY"; "QQQ"; "SPY"]%string init = (Ok panel, out.2)).
  { rewrite <-Hpanel. apply surjective_pairing. }
  exists panel, out.2. split; [exact Hget|].
  apply (panel_has_the_requested_symbols (Samples.env [])
           ["SPY"; "QQQ"; "SPY"]%string init out.2 panel);
    [reflexivity|exact Hget].
Defined.

(** X8. In a panel computed by [get_price_history], the entry of a symbol
    comes from the answer of the provider to the last request made for that
    symbol (an earlier answer for the same symbol is overwritten): it is
    that answer with its columns flattened, laid out on the index of the
    entry and forward filled. *)
Theorem panel_entry_from_last_download {V} `{!Promote V} (env : Env V)
    (pre post : list string) (s : string) (st st' : State V)
    (panel : gmap string (DataFrame V)) :
  price_cache st = None →
  s ∉ post →
  get_price_history env (pre ++ s :: post) st = (Ok panel, st') →
  ∃ df df0 df',
    yf_download env (downloads st ++ pre) s = Ok df
    ∧ flatten_columns df = Ok df0
    ∧ panel !! s = Some df'
    ∧ df' = ffill (conform df0 (index df')).
Proof.
  intros Hc Hs Hget.
  destruct (get_price_history_fresh _ _ _ _ _ Hc Hget)
    as (frames & st1 & Hloop & Hal).
  destruct (download_loop_last _ _ _ _ _ _ _ _ Hloop Hs)
    as (df & df0 & Hdl & Hfl & Hfr).
  destruct (align_if_any_inv _ _ Hal) as [Hl _].
  exists df, df0, (ffill (conform df0 (complete_dates frames))).
  split; [done|]. split; [done|]. split; [by rewrite Hl, Hfr|].
  by rewrite index_ffill, index_conform.
Qed.

Lemma panel_entry_from_last_download_witness :
  ∃ panel st' df df0 df',
    get_price_history (Samples.env []) ["SPY"; "QQQ"; "SPY"]%string init
    = (Ok panel, st')
    ∧ yf_download (Samples.env []) ["SPY"; "QQQ"]%string "SPY"%string = Ok df
    ∧ flatten_columns df = Ok df0
    ∧ panel !! "SPY"%string = Some df'
    ∧ df' = ffill (conform df0 (index df')).
Proof.
  pose (out := get_price_history (Samples.env [])
                 ["SPY"; "QQQ"; "SPY"]%string init).
  assert (Hret : ∃ panel, out.1 = Ok panel) by (vm_compute; eauto).
  destruct Hret as [panel Hpanel].
  assert (Hget : get_price_history (Samples.env [])
                   (["SPY"; "QQQ"]%string ++ "SPY"%string :: []) init
                 = (Ok panel, out.2)).
  { rewrite <-Hpanel. apply surjective_pairing. }
  assert (Hc : price_cache (@init Z) = None) by reflexivity.
  destruct (panel_entry_from_last_download (Samples.env [])
              ["SPY"; "QQQ"]%string [] "SPY"%string init out.2 panel
              Hc (not_elem_of_nil _) Hget)
    as (df & df0 & df' & H1 & H2 & H3 & H4).
  exists panel, out.2, df, df0, df'. repeat split; done.
Defined.

(** ** More on the alignment *)

Section AlignMore.
Context {V : Type} `{!Promote V}.
Implicit Types (df : DataFrame V) (rs : list (Row V)).
Implicit Types (frames panel : gmap string (DataFrame V)).

Lemma reindex_loop_Raise dates keys frames e :
  reindex_loop dates keys frames = Raise e →
  (∀ k, k ∈ keys → is_Some (frames !! k)) →
  e = ValueError.
Proof.
  revert frames. induction keys as [|k keys IH]; intros frames Hloop Hk;
    simpl in Hloop; [done|].
  destruct (Hk k) as [df Hdf]; [apply list_elem_of_here|].
  rewrite Hdf in Hloop. unfold reindex in Hloop.
  case_decide; simpl in Hloop; [|by injection Hloop].
  apply (IH _ Hloop). intros k' Hk'. rewrite lookup_insert_is_Some.
  destruct (decide (k = k')) as [->|Hne]; [by left|right].
  split; [done|]. apply Hk. by apply list_elem_of_further.
Qed.

Lemma align_if_any_Raise frames e :
  align_if_any frames = Raise e → e = ValueError.
Proof.
  unfold align_if_any, align. case_bool_decide; [done|].
  intros Hloop. apply (reindex_loop_Raise _ _ _ _ Hloop).
  intros k. by rewrite elem_of_keys.
Qed.

Lemma conform_rows_self rs (fallback : list (option V)) :
  NoDup rs.*1 →
  map (λ d, (d, default fallback (lookup_row d rs))) rs.*1 = rs.
Proof.
  induction rs as [|[d0 c0] rs IH]; simpl; [done|].
  intros [Hd0 Hnd]%NoDup_cons. rewrite decide_True by done. simpl. f_equal.
  rewrite <-(IH Hnd) at 2. apply map_ext_in. intros d Hd%list_elem_of_In.
  rewrite decide_False; [done|]. by intros ->.
Qed.

(** Laying a frame out on its own index changes nothing. *)
Lemma conform_index df : NoDup (index df) → conform df (index df) = df.
Proof.
  intros Hnd. unfold conform. rewrite covers_true by done.
  destruct df as [c rs]. unfold index in *; simpl in *. f_equal.
  rewrite <-(conform_rows_self rs (replicate (columns_length c) None) Hnd) at 2.
  apply map_ext. intros d. by destruct (lookup_row d rs).
Qed.

Lemma fill_row_idem (last cells : list (option V)) :
  fill_row last (fill_row last cells) = fill_row last cells.
Proof.
  revert last. induction cells as [|c cs IH]; intros last; simpl; [done|].
  rewrite IH. f_equal. destruct c; [done|]. by destruct (mjoin (head last)).
Qed.

Lemma ffill_rows_idem (last : list (option V)) rs :
  ffill_rows last (ffill_rows last rs) = ffill_rows last rs.
Proof.
  revert last. induction rs as [|[d c] rs IH]; intros last; simpl; [done|].
  by rewrite fill_row_idem, IH.
Qed.

Lemma ffill_idem df : ffill (ffill df) = ffill df.
Proof. unfold ffill; simpl. by rewrite ffill_rows_idem. Qed.

(** The aligned panel has the calendar of the frames it comes from. *)
Lemma complete_dates_aligned frames panel :
  align_if_any frames = Ok panel →
  complete_dates panel = complete_dates frames.
Proof.
  intros [Hl _]%align_if_any_inv. unfold complete_dates. f_equal. f_equal.
  apply set_eq. intros d. rewrite !elem_of_all_dates. split.
  - intros (s & df' & Hs & Hd). rewrite Hl in Hs.
    apply fmap_Some in Hs as (df & Hs & ->).
    rewrite index_ffill, index_conform in Hd.
    by apply elem_of_complete_dates in Hd.
  - intros (s & df & Hs & Hd). eexists s, _. rewrite Hl, Hs. split; [done|].
    rewrite index_ffill, index_conform. apply elem_of_complete_dates. eauto.
Qed.

Lemma last_seen_acc_Some (f : Z → option V) ds D acc :
  is_Some acc → is_Some (last_seen f ds D acc).
Proof.
  revert acc. induction ds as [|d ds IH]; intros acc Hacc; simpl; [done|].
  assert (is_Some (match f d with Some v => Some v | None => acc end))
    by (destruct (f d); eauto).
  case_decide; [done|]. by apply IH.
Qed.

(** On strictly increasing labels the scan carries a value to [D] as soon
    as something was observed up to [D]. *)
Lemma last_seen_Some (f : Z → option V) ds D acc d0 :
  StronglySorted Z.lt ds → D ∈ ds → d0 ∈ ds → d0 ≤ D → is_Some (f d0) →
  is_Some (last_seen f ds D acc).
Proof.
  intros Hs. revert acc.
  induction Hs as [|d ds Hs IH Hall]; intros acc HD Hd0 Hle [v Hv]; simpl.
  - by apply elem_of_nil in HD.
  - rewrite Forall_forall in Hall.
    destruct (decide (d = D)) as [->|Hne].
    + apply elem_of_cons in Hd0 as [->|Hd0]; [rewrite Hv; eauto|].
      pose proof (Hall d0 Hd0). lia.
    + apply elem_of_cons in HD as [->|HD]; [done|].
      apply elem_of_cons in Hd0 as [->|Hd0].
      * rewrite Hv. apply last_seen_acc_Some. eauto.
      * apply IH; eauto.
Qed.

Lemma cell_Some_index df d j v : cell df d j = Some v → d ∈ index df.
Proof.
  unfold cell. destruct (lookup_row d (rows df)) as [c|] eqn:E; [|done].
  intros _. apply lookup_row_is_Some. eauto.
Qed.

Lemma empty_aligned df (dates : list Z) :
  empty (ffill (conform df dates)) = false ↔ dates ≠ [] ∧ ncols df ≠ 0%nat.
Proof.
  split; [|intros []; by apply aligned_not_empty].
  unfold empty. intros [H1 H2]%orb_false_iff.
  apply bool_decide_eq_false in H1, H2. split; [|done].
  intros ->. by apply H1.
Qed.

End AlignMore.

(** X9. The alignment raises in one case only, and then with the
    [ValueError] of [reindex]: when the frame of some symbol has two rows
    with the same date. In particular the lookups of its loop never fail. *)
Theorem alignment_raises_on_repeated_dates {V} `{!Promote V}
    (frames : gmap string (DataFrame V)) (e : exn) :
  align_if_any frames = Raise e
  ↔ e = ValueError ∧ ∃ s df, frames !! s = Some df ∧ ¬ NoDup (index df).
Proof.
  split.
  - intros Hal. split; [by apply align_if_any_Raise in Hal|].
    destruct (decide (map_Forall (λ (_ : string) (df : DataFrame V),
                                    NoDup (index df)) frames)) as [Hnd|Hnd].
    + destruct (align_if_any_total frames Hnd) as [panel Hok]. congruence.
    + by apply map_not_Forall in Hnd; [|apply _].
  - intros [-> (s & df & Hs & Hdup)].
    destruct (align_if_any frames) as [panel|e] eqn:Hal.
    + destruct (align_if_any_inv _ _ Hal) as [_ Hnd]. destruct Hdup. eauto.
    + by apply align_if_any_Raise in Hal as ->.
Qed.

(** X10. Aligning a panel that comes out of the alignment gives that panel
    back: its calendar, its indexes and every cell are already final. *)
Theorem alignment_is_idempotent {V} `{!Promote V} (frames panel : gmap string (DataFrame V)) :
  align_if_any frames = Ok panel → align_if_any panel = Ok panel.
Proof.
  intros Hal. pose proof (complete_dates_aligned _ _ Hal) as Hcal.
  destruct (align_if_any_inv _ _ Hal) as [Hl _].
  assert (Hnd : map_Forall (λ (_ : string) (df : DataFrame V),
                              NoDup (index df)) panel).
  { intros s df'. rewrite Hl. intros (df & _ & ->)%fmap_Some.
    rewrite index_ffill, index_conform. apply NoDup_complete_dates. }
  destruct (align_if_any_total panel Hnd) as [panel2 Hal2].
  rewrite Hal2. f_equal. apply map_eq. intros s.
  destruct (align_if_any_inv _ _ Hal2) as [Hl2 _].
  rewrite Hl2, Hcal, Hl. destruct (frames !! s) as [df|]; simpl; [|done].
  f_equal.
  rewrite <-(index_conform df (complete_dates frames)) at 2.
  rewrite <-(index_ffill (conform df (complete_dates frames))).
  rewrite conform_index.
  - apply ffill_idem.
  - rewrite index_ffill, index_conform. apply NoDup_complete_dates.
Qed.

Lemma alignment_is_idempotent_witness :
  ∃ panel,
    align_if_any Samples.frames3 = Ok panel ∧ align_if_any panel = Ok panel.
Proof.
  pose (panel := (λ x, ffill (conform x (complete_dates Samples.frames3)))
                 <$> Samples.frames3).
  assert (Hal : align_if_any Samples.frames3 = Ok panel)
    by (vm_compute; reflexivity).
  exists panel. split; [exact Hal|].
  apply (alignment_is_idempotent Samples.frames3 panel Hal).
Defined.

(** X11. The alignment loses no observation: a value observed in the native
    series of a symbol at some date and column is in the panel at that date
    and column, unchanged when every calendar date is a native date of the
    symbol, and promoted ([int64] to [float64]) when the reindexing had a
    row to add. *)
Theorem observed_values_are_kept {V} `{!Promote V}
    (frames panel : gmap string (DataFrame V))
    (s : string) (df : DataFrame V) (d : Z) (j : nat) (v : V) :
  align_if_any frames = Ok panel →
  frames !! s = Some df →
  rectangular df →
  cell df d j = Some v →
  ∃ df',
    panel !! s = Some df'
    ∧ ((∀ c, c ∈ index df' → c ∈ index df) → cell df' d j = Some v)
    ∧ ((∃ c, c ∈ index df' ∧ c ∉ index df) →
       cell df' d j = Some (promote v)).
Proof.
  intros Hal Hs Hrect Hv. destruct (align_if_any_inv _ _ Hal) as [Hl _].
  eexists. split; [by rewrite Hl, Hs|].
  rewrite index_ffill, index_conform.
  assert (Hd : d ∈ complete_dates frames).
  { apply elem_of_complete_dates. exists s, df. split; [done|].
    by apply cell_Some_index in Hv. }
  rewrite (cell_aligned df _ d j Hrect Hd).
  assert (Hkept :
    last_seen (λ d0, promote_if (covers df (complete_dates frames))
                       <$> cell df d0 j) (complete_dates frames) d None
    = Some (promote_if (covers df (complete_dates frames)) v)).
  { apply (last_seen_latest _ _ _ _ d);
      [apply complete_dates_sorted|done|done|lia|by rewrite Hv|].
    intros d' _ ?. lia. }
  rewrite Hkept. unfold promote_if. split.
  - intros Hall. by rewrite covers_true.
  - intros (c & Hc & Hnc). by rewrite (covers_false _ _ c).
Qed.

Lemma observed_values_are_kept_witness :
  (∃ panel df',
     align_if_any Samples.frames_volume = Ok panel
     ∧ panel !! "VOL"%string = Some df'
     ∧ cell df' 1 0 = Some 9007199254740992)
  ∧ (∃ panel df',
       align_if_any Samples.frames3 = Ok panel
       ∧ panel !! "SPY"%string = Some df'
       ∧ cell df' 5 1 = Some 51).
Proof.
  split.
  - pose (panel := (λ x, ffill (conform x (complete_dates Samples.frames_volume)))
                   <$> Samples.frames_volume).
    assert (Hal : align_if_any Samples.frames_volume = Ok panel)
      by (vm_compute; reflexivity).
    assert (Hs : Samples.frames_volume !! "VOL"%string = Some Samples.volume)
      by (vm_compute; reflexivity).
    assert (Hrect : rectangular Samples.volume)
      by (apply (bool_decide_unpack _); vm_compute; exact I).
    assert (Hv : cell Samples.volume 1 0 = Some 9007199254740993)
      by reflexivity.
    destruct (observed_values_are_kept _ _ _ _ 1 0%nat _ Hal Hs Hrect Hv)
      as (df' & Hs' & _ & Hc).
    exists panel, df'. split; [exact Hal|]. split; [exact Hs'|].
    apply Hc. exists 3. clear Hc.
    assert (Hdf' : df' = ffill (conform Samples.volume
                                  (complete_dates Samples.frames_volume))).
    { assert (Hs2 : panel !! "VOL"%string
                    = Some (ffill (conform Samples.volume
                                     (complete_dates Samples.frames_volume))))
        by (vm_compute; reflexivity).
      rewrite Hs' in Hs2. injection Hs2 as Hs2. exact Hs2. }
    rewrite Hdf'. split; apply (bool_decide_unpack _); vm_compute; exact I.
  - pose (df := {| columns := Index ["Close"; "Open"]%string;
                   rows := rows Samples.spy |}).
    pose (panel := (λ x, ffill (conform x (complete_dates Samples.frames3)))
                   <$> Samples.frames3).
    assert (Hal : align_if_any Samples.frames3 = Ok panel)
      by (vm_compute; reflexivity).
    assert (Hs : Samples.frames3 !! "SPY"%string = Some df)
      by (vm_compute; reflexivity).
    assert (Hrect : rectangular df)
      by (apply (bool_decide_unpack _); vm_compute; exact I).
    assert (Hv : cell df 5 1 = Some 51) by reflexivity.
    destruct (observed_values_are_kept _ _ _ _ 5 1%nat _ Hal Hs Hrect Hv)
      as (df' & Hs' & _ & Hc).
    exists panel, df'. split; [exact Hal|]. split; [exact Hs'|].
    apply Hc. exists 3. clear Hc.
    assert (Hdf' : df' = ffill (conform df (complete_dates Samples.frames3))).
    { assert (Hs2 : panel !! "SPY"%string
                    = Some (ffill (conform df (complete_dates Samples.frames3))))
        by (vm_compute; reflexivity).
      rewrite Hs' in Hs2. injection Hs2 as Hs2. exact Hs2. }
    rewrite Hdf'. split; apply (bool_decide_unpack _); vm_compute; exact I.
Defined.

(** X12. An aligned series has no gap after its first observation: when
    the native series has an observation in a column at some date, the
    panel holds a value in that column at every calendar date from that
    date on. *)
Theorem no_gap_after_first_observation {V} `{!Promote V}
    (frames panel : gmap string (DataFrame V)) (s : string)
    (df df' : DataFrame V) (d0 D : Z) (j : nat) :
  align_if_any frames = Ok panel →
  frames !! s = Some df →
  panel !! s = Some df' →
  rectangular df →
  is_Some (cell df d0 j) →
  d0 ≤ D →
  D ∈ index df' →
  is_Some (cell df' D j).
Proof.
  intros Hal Hs Hs' Hrect [v Hv] Hle HD.
  destruct (align_if_any_inv _ _ Hal) as [Hl _].
  rewrite Hl, Hs in Hs'. injection Hs' as <-.
  rewrite index_ffill, index_conform in HD.
  rewrite (cell_aligned df _ D j Hrect HD).
  apply (last_seen_Some _ _ _ _ d0);
    [apply complete_dates_sorted|done| |done|rewrite Hv; by eexists].
  apply elem_of_complete_dates. exists s, df. split; [done|].
  by apply cell_Some_index in Hv.
Qed.

Lemma no_gap_after_first_observation_witness :
  ∃ panel df',
    align_if_any Samples.frames2 = Ok panel
    ∧ panel !! "QQQ"%string = Some df'
    ∧ is_Some (cell df' 5 0).
Proof.
  pose (df' := ffill (conform Samples.qqq (complete_dates Samples.frames2))).
  pose (panel := (λ x, ffill (conform x (complete_dates Samples.frames2)))
                 <$> Samples.frames2).
  assert (Hal : align_if_any Samples.frames2 = Ok panel)
    by (vm_compute; reflexivity).
  assert (Hs : Samples.frames2 !! "QQQ"%string = Some Samples.qqq)
    by (vm_compute; reflexivity).
  assert (Hs' : panel !! "QQQ"%string = Some df')
    by (vm_compute; reflexivity).
  assert (Hrect : rectangular Samples.qqq)
    by (apply (bool_decide_unpack _); vm_compute; exact I).
  assert (HD : 5 ∈ index df')
    by (apply (bool_decide_unpack _); vm_compute; exact I).
  exists panel, df'. split; [exact Hal|]. split; [exact Hs'|].
  apply (no_gap_after_first_observation _ _ _ _ _ 3 5 0%nat Hal Hs Hs' Hrect);
    [by exists 7|lia|exact HD].
Defined.

(** X13. On a panel that the alignment has just returned, the price check
    of the validator (lines 128-131) passes exactly when every checked
    symbol has a frame with at least one column and the calendar is not
    empty, that is when some symbol of the panel has a date: whether a
    checked symbol has any data of its own plays no part. *)
Theorem price_check_after_alignment {V} `{!Promote V}
    (frames panel : gmap string (DataFrame V)) (symbols : list string) :
  align_if_any frames = Ok panel →
  (check_symbols symbols panel = true
   ↔ ∀ s, s ∈ symbols →
          ∃ df, frames !! s = Some df
                ∧ ncols df ≠ 0%nat
                ∧ complete_dates frames ≠ []).
Proof.
  intros Hal. destruct (align_if_any_inv _ _ Hal) as [Hl _].
  rewrite check_symbols_true. split.
  - intros H s Hs. destruct (H s Hs) as (df' & Hp & Hempty).
    rewrite Hl in Hp. apply fmap_Some in Hp as (df & Hf & ->).
    apply empty_aligned in Hempty as [? ?]. by exists df.
  - intros H s Hs. destruct (H s Hs) as (df & Hf & Hn & Hcal).
    eexists. rewrite Hl, Hf. split; [done|]. by apply empty_aligned.
Qed.

Lemma price_check_after_alignment_witness :
  ∃ panel,
    align_if_any Samples.frames3 = Ok panel
    ∧ check_symbols ["SPY"; "GONE"]%string panel = true
    ∧ rows Samples.none_in_range = [].
Proof.
  assert (Hall : ∀ s, s ∈ ["SPY"; "GONE"]%string →
            ∃ df : DataFrame Z,
              Samples.frames3 !! s = Some df
              ∧ ncols df ≠ 0%nat
              ∧ complete_dates Samples.frames3 ≠ []).
  { intros s Hs.
    assert (s = "SPY"%string ∨ s = "GONE"%string) as [-> | ->].
    { apply elem_of_cons in Hs as [->|Hs]; [left; reflexivity|].
      apply elem_of_cons in Hs as [->|Hs]; [right; reflexivity|].
      apply elem_of_nil in Hs. destruct Hs. }
    - eexists. split; [vm_compute; reflexivity|].
      split; vm_compute; intros H; discriminate H.
    - eexists. split; [vm_compute; reflexivity|].
      split; vm_compute; intros H; discriminate H. }
  pose (panel := (λ x, ffill (conform x (complete_dates Samples.frames3)))
                 <$> Samples.frames3).
  assert (Hal : align_if_any Samples.frames3 = Ok panel)
    by (vm_compute; reflexivity).
  exists panel. split; [exact Hal|]. split; [|reflexivity].
  apply (price_check_after_alignment Samples.frames3 panel _ Hal). exact Hall.
Defined.

(** X14. A further symbol whose dates are distinct and all belong to the
    calendar of the others changes nothing for them: the alignment still
    returns, and the entry of every other symbol is the same as without
    it. A symbol without any row is such a symbol. *)
Theorem symbol_inside_calendar_leaves_others {V} `{!Promote V}
    (frames panel : gmap string (DataFrame V)) (s : string) (df : DataFrame V) :
  align_if_any frames = Ok panel →
  frames !! s = None →
  NoDup (index df) →
  (∀ d, d ∈ index df → d ∈ complete_dates frames) →
  ∃ panel',
    align_if_any (<[s := df]> frames) = Ok panel'
    ∧ ∀ s', s' ≠ s → panel' !! s' = panel !! s'.
Proof.
  intros Hal Hs Hdf Hin. destruct (align_if_any_inv _ _ Hal) as [Hl Hnd].
  assert (Hcal : complete_dates (<[s := df]> frames) = complete_dates frames).
  { unfold complete_dates. f_equal. f_equal. apply set_eq. intros d.
    rewrite !elem_of_all_dates. split.
    - intros (s' & df' & Hs' & Hd). destruct (decide (s' = s)) as [->|Hne].
      + rewrite lookup_insert_eq in Hs'. injection Hs' as <-.
        by apply elem_of_complete_dates, Hin.
      + rewrite lookup_insert_ne in Hs' by done. eauto.
    - intros (s' & df' & Hs' & Hd). exists s', df'. split; [|done].
      rewrite lookup_insert_ne; [done|]. intros <-. congruence. }
  assert (Hnd' : map_Forall (λ (_ : string) (df0 : DataFrame V),
                               NoDup (index df0)) (<[s := df]> frames)).
  { intros s' df'. destruct (decide (s' = s)) as [->|Hne].
    - rewrite lookup_insert_eq. by intros [= <-].
    - rewrite lookup_insert_ne by done. apply Hnd. }
  destruct (align_if_any_total _ Hnd') as [panel' Hal'].
  exists panel'. split; [done|]. intros s' Hne.
  destruct (align_if_any_inv _ _ Hal') as [Hl' _].
  by rewrite Hl', Hcal, Hl, lookup_insert_ne.
Qed.

Lemma symbol_inside_calendar_leaves_others_witness :
  ∃ panel panel',
    align_if_any Samples.frames2 = Ok panel
    ∧ align_if_any (<["IN"%string := Samples.inside]> Samples.frames2)
      = Ok panel'
    ∧ ∀ s', s' ≠ "IN"%string → panel' !! s' = panel !! s'.
Proof.
  assert (Hin : ∀ d, d ∈ index Samples.inside →
                     d ∈ complete_dates Samples.frames2).
  { intros d Hd.
    assert (d = 4 ∨ d = 2) as [-> | ->].
    { apply elem_of_cons in Hd as [->|Hd]; [left; reflexivity|].
      apply elem_of_cons in Hd as [->|Hd]; [right; reflexivity|].
      apply elem_of_nil in Hd. destruct Hd. }
    - apply (bool_decide_unpack _). vm_compute. exact I.
    - apply (bool_decide_unpack _). vm_compute. exact I. }
  assert (Hnd : NoDup (index Samples.inside))
    by (apply (bool_decide_unpack _); vm_compute; exact I).
  assert (Hnone : Samples.frames2 !! "IN"%string = None)
    by (vm_compute; reflexivity).
  pose (panel := (λ x, ffill (conform x (complete_dates Samples.frames2)))
                 <$> Samples.frames2).
  assert (Hal : align_if_any Samples.frames2 = Ok panel)
    by (vm_compute; reflexivity).
  destruct (symbol_inside_calendar_leaves_others Samples.frames2 panel
              "IN"%string Samples.inside Hal Hnone Hnd Hin)
    as (panel' & Hal' & Hsame).
  exists panel, panel'. split; [exact Hal|]. split; [exact Hal'|exact Hsame].
Defined.
